(** * ABPedSim: start configuration of a pedestrian simulation

    Shallow embedding of [abPedestrianTool.py]: the region filter
    ([defineBorders]), the gateway locator ([findStations]), the modal
    split ([factoring]), the placement of pedestrians ([randomPoint] and
    the loops of [defineStartVariables]) and the mission table.

    Python floats are binary64 numbers and are embedded as primitive
    floats, so that sums such as [0.6 + 0.3] round as they do in Python.
    The geometry engine (shapely) and the [random] module are external
    to the repository; they appear as interfaces ([Shapely],
    [RandomModule]) with one executable instance each. *)

From Stdlib Require Import ZArith List Lia String Bool.
From Stdlib Require Import Floats.PrimFloat.
Import ListNotations.

Set Warnings "-inexact-float".
Set Implicit Arguments.

(** ** Python values, exceptions and the effect monad *)

(** The exceptions the modelled code can raise. [RecursionError] is what
    the interpreter raises when the call depth exceeds its limit; the
    limit is the [fuel] argument of the recursive functions below. *)
Inductive exn : Type :=
| ValueError
| IndexError
| RecursionError.

Inductive result (A : Type) : Type :=
| Ok (a : A)
| Raise (e : exn).

Arguments Ok {A} a.
Arguments Raise {A} e.

(** A shapely [Point]: two binary64 coordinates. *)
Record Point : Type := mkPoint { pt_x : float; pt_y : float }.

(** A fiona feature, reduced to its identifier (unique within its layer)
    and its geometry; [shape(feature['geometry'])] is [geometry feature]. *)
Record Feature (T : Type) : Type := mkFeature { fid : Z; geometry : T }.

(** [len(l) > 0] *)
Definition nonempty {A : Type} (l : list A) : bool := (0 <? List.length l)%nat.

(** [l[i]] for a Python list: negative indexes count from the end, any
    other index outside the list raises [IndexError]. *)
Definition py_index {A : Type} (l : list A) (i : Z) : result A :=
  let n := Z.of_nat (List.length l) in
  let j := if (i <? 0)%Z then (n + i)%Z else i in
  if ((j <? 0) || (n <=? j))%Z then Raise IndexError
  else match nth_error l (Z.to_nat j) with
       | Some a => Ok a
       | None => Raise IndexError
       end.

(** ** Modal split: [factoring] *)

Module ModalSplit.

Local Open Scope float_scope.

(** The four factors, in the order the source returns them:
    [bahnFactor, busFactor, radFactor, autoFactor]. *)
Definition factors : Type := (float * float * float * float)%type.

(** [factoring(bahnPeds, busPeds, radPeds, autoPeds)]: every factor starts
    at [0]; the nested tests on [len(...) > 0] overwrite some of them. *)
Definition factoring {A : Type} (bahnPeds busPeds radPeds autoPeds : list A)
  : factors :=
  if nonempty bahnPeds then
    if nonempty busPeds then
      if nonempty radPeds then
        if nonempty autoPeds then (0.55, 0.25, 0.1, 0.1)
        else (0.6, 0.3, 0.1, 0)
      else
        if nonempty autoPeds then (0.6, 0.3, 0, 0.1)
        else (0.7, 0.3, 0, 0)
    else
      if nonempty radPeds then
        if nonempty autoPeds then (0.8, 0, 0.1, 0.1)
        else (0.9, 0, 0.1, 0)
      else
        if nonempty autoPeds then (0.9, 0, 0, 0.1)
        else (1, 0, 0, 0)
  else
    if nonempty busPeds then
      if nonempty radPeds then
        if nonempty autoPeds then (0, 0.70, 0.15, 0.15)
        else (0, 0.75, 0.25, 0)
      else
        if nonempty autoPeds then (0, 0.5, 0, 0.5)
        else (0, 1, 0, 0)
    else
      if nonempty radPeds then
        if nonempty autoPeds then (0, 0, 0.4, 0.6)
        else (0, 0, 1, 0)
      else (0, 0, 0, 1).

Definition bahnFactor (f : factors) : float := fst (fst (fst f)).
Definition busFactor (f : factors) : float := snd (fst (fst f)).
Definition radFactor (f : factors) : float := snd (fst f).
Definition autoFactor (f : factors) : float := snd f.

(** The decision table of the specification, in percent, keyed by the
    availability of rail, bus, bike and car. The row with no mode at all
    is not in the table. *)
Definition table_percent (rail bus bike car : bool) : option factors :=
  match rail, bus, bike, car with
  | true, true, true, true => Some (55, 25, 10, 10)
  | true, true, true, false => Some (60, 30, 10, 0)
  | true, true, false, true => Some (60, 30, 0, 10)
  | true, true, false, false => Some (70, 30, 0, 0)
  | true, false, true, true => Some (80, 0, 10, 10)
  | true, false, true, false => Some (90, 0, 10, 0)
  | true, false, false, true => Some (90, 0, 0, 10)
  | true, false, false, false => Some (100, 0, 0, 0)
  | false, true, true, true => Some (0, 70, 15, 15)
  | false, true, true, false => Some (0, 75, 25, 0)
  | false, true, false, true => Some (0, 50, 0, 50)
  | false, true, false, false => Some (0, 100, 0, 0)
  | false, false, true, true => Some (0, 0, 40, 60)
  | false, false, true, false => Some (0, 0, 100, 0)
  | false, false, false, true => Some (0, 0, 0, 100)
  | false, false, false, false => None
  end.

(** A row of percentages as weights. *)
Definition weights_of_percent (row : factors) : factors :=
  let '(r, b, k, c) := row in (r / 100, b / 100, k / 100, c / 100).

(** The weight tuple the specification's table prescribes. *)
Definition table_weights (rail bus bike car : bool) : option factors :=
  option_map weights_of_percent (table_percent rail bus bike car).

(** [sys.float_info.epsilon], the tolerance of the sum test. *)
Definition epsilon : float := 0x1p-52.

(** [abs(w1 + w2 + w3 + w4 - 1.0) <= epsilon] *)
Definition sums_to_one (f : factors) : bool :=
  let '(r, b, k, c) := f in
  PrimFloat.leb (PrimFloat.abs (r + b + k + c - 1)) epsilon.

(** A mode without gateways has factor exactly [0], for each mode. *)
Definition absent_modes_weigh_nothing {A : Type}
  (bahnPeds busPeds radPeds autoPeds : list A) : Prop :=
  let f := factoring bahnPeds busPeds radPeds autoPeds in
  (List.length bahnPeds = 0%nat -> bahnFactor f = 0) /\
  (List.length busPeds = 0%nat -> busFactor f = 0) /\
  (List.length radPeds = 0%nat -> radFactor f = 0) /\
  (List.length autoPeds = 0%nat -> autoFactor f = 0).

End ModalSplit.

(** ** The effect monad

    State passing for the generator of the [random] module, with
    exceptions: a computation takes the generator state and either
    returns a value with the next state or raises. *)

Section Monad.

Variable G : Type.

Definition M (A : Type) : Type := G -> result (A * G).

Definition ret {A : Type} (a : A) : M A := fun g => Ok (a, g).

Definition bind {A B : Type} (m : M A) (k : A -> M B) : M B :=
  fun g => match m g with
           | Ok (a, g') => k a g'
           | Raise e => Raise e
           end.

Definition raise {A : Type} (e : exn) : M A := fun _ => Raise e.

Definition lift {A : Type} (r : result A) : M A :=
  fun g => match r with
           | Ok a => Ok (a, g)
           | Raise e => Raise e
           end.

(** [m'] returns whatever [m] returns. *)
Definition refines {A : Type} (m m' : M A) : Prop :=
  forall g r, m g = Ok r -> m' g = Ok r.

End Monad.

Arguments ret {G A} a.
Arguments raise {G A} e.
Arguments lift {G A} r.

Notation "x <- m ;; k" := (bind m (fun x => k))
  (at level 61, m at next level, right associativity).

(** ** The [random] module

    [random g] is [random.random()], [randint a b] is
    [random.randint(a, b)]. The module is not part of the repository; the
    code relies on its documented behaviour, stated as
    [randint_contract]. *)

Class RandomModule (G : Type) : Type := {
  random : G -> float * G;
  randint : Z -> Z -> M G Z
}.

(** [randint(a, b)] raises [ValueError] on an empty range and returns an
    integer of [a..b] otherwise. *)
Definition randint_contract (G : Type) {R : RandomModule G} : Prop :=
  (forall a b g, (b < a)%Z -> randint a b g = Raise ValueError) /\
  (forall a b g, (a <= b)%Z ->
     exists k g', randint a b g = Ok (k, g') /\ (a <= k <= b)%Z).

Arguments randint_contract G {R}.

Section RandomDraws.

Context {G : Type} {R : RandomModule G}.
Local Open Scope float_scope.

Definition draw_random : M G float := fun g => Ok (random g).

(** [random.uniform(a, b)] is [a + (b - a) * random()]. *)
Definition uniform (a b : float) : M G float :=
  u <- draw_random ;; ret (a + (b - a) * u).

End RandomDraws.

(** An executable generator: a tape of the 53-bit integers the generator
    will produce, followed by zeros. *)
Definition Tape : Type := list Z.

Definition next (t : Tape) : Z * Tape :=
  match t with
  | [] => (0%Z, [])
  | k :: t' => (k, t')
  end.

Fixpoint float_of_pos (p : positive) : float :=
  match p with
  | xH => 1
  | xO q => 2 * float_of_pos q
  | xI q => 2 * float_of_pos q + 1
  end%float.

Definition float_of_Z (z : Z) : float :=
  match z with
  | Z0 => 0
  | Zpos p => float_of_pos p
  | Zneg p => - float_of_pos p
  end%float.

(** [random()] is a 53-bit integer scaled by [2^-53]. *)
Definition tape_random (t : Tape) : float * Tape :=
  let (k, t') := next t in
  ((float_of_Z (k mod 2 ^ 53) / 9007199254740992)%float, t').

Definition tape_randint (a b : Z) : M Tape Z :=
  fun t => if (b <? a)%Z then Raise ValueError
           else let (k, t') := next t in Ok ((a + k mod (b - a + 1))%Z, t').

#[export] Instance TapeRandom : RandomModule Tape :=
  {| random := tape_random; randint := tape_randint |}.

(** ** The geometry engine

    The operations of shapely the code calls: [box(minx, miny, maxx,
    maxy)], [shape(...)] of a point geometry, [g.buffer(d)] and
    [g.intersects(h)]. *)

Class Shapely (Geometry : Type) : Type := {
  box : float -> float -> float -> float -> Geometry;
  shape_point : Point -> Geometry;
  buffer : Geometry -> float -> Geometry;
  intersects : Geometry -> Geometry -> bool
}.

(** [p.distance(a)] between two points. *)
Definition distance (p a : Point) : float :=
  let dx := (pt_x p - pt_x a)%float in
  let dy := (pt_y p - pt_y a)%float in
  PrimFloat.sqrt (dx * dx + dy * dy)%float.

(** An executable geometry: axis-aligned rectangles, a point being the
    rectangle of its two equal corners. The buffer of a rectangle is taken
    with square corners. *)
Record Rect : Type := mkRect { minx : float; miny : float; maxx : float; maxy : float }.

Definition rect_of_point (p : Point) : Rect :=
  mkRect (pt_x p) (pt_y p) (pt_x p) (pt_y p).

Definition rect_buffer (r : Rect) (d : float) : Rect :=
  mkRect (minx r - d) (miny r - d) (maxx r + d) (maxy r + d)%float.

Definition rect_intersects (a b : Rect) : bool :=
  (minx a <=? maxx b)%float && (minx b <=? maxx a)%float &&
  (miny a <=? maxy b)%float && (miny b <=? maxy a)%float.

#[export] Instance RectShapely : Shapely Rect :=
  {| box := mkRect; shape_point := rect_of_point;
     buffer := rect_buffer; intersects := rect_intersects |}.

(** Two floats are different as soon as one test tells them apart. *)
Definition float_neq_by (t : float -> bool) (a b : float)
  (Ht : t a <> t b) : a <> b :=
  fun Heq : a = b => Ht (f_equal t Heq).

(** ** Region filter, gateway locator, crowd generator and missions *)

(** A located station: the feature and the tag of the layer it came from
    ("Bahn", "Bus", "Rad" or "Auto"). *)
Definition Station : Type := (Feature Point * string)%type.

(** [==] on station tuples: identifiers, coordinates (compared as Python
    compares floats) and tags. *)
Definition station_eqb (s t : Station) : bool :=
  (fid (fst s) =? fid (fst t))%Z &&
  (pt_x (geometry (fst s)) =? pt_x (geometry (fst t)))%float &&
  (pt_y (geometry (fst s)) =? pt_y (geometry (fst t)))%float &&
  String.eqb (snd s) (snd t).

(** [l.remove(station)]: the first element equal to [station] goes. The
    code only removes the element its iterator has just produced, so the
    list always holds one. *)
Fixpoint remove_first (station : Station) (l : list Station) : list Station :=
  match l with
  | [] => []
  | s :: rest => if station_eqb s station then rest
                 else s :: remove_first station rest
  end.

(** The waypoints of a mission and a row of [pedMission.csv]: the start
    point, the mental model and the waypoints. The csv text is the WKT
    rendering of these values. *)
Definition Row : Type := (Point * string * list Point)%type.

Section Pipeline.

Context {Geometry : Type} {Shp : Shapely Geometry}.
Context {G : Type} {R : RandomModule G}.

Import ModalSplit.
Local Open Scope float_scope.

(** *** [defineBorders] *)

(** The [for building in buildings] loop; [boundariesInBBox] is the list
    built so far. *)
Fixpoint defineBorders_loop (buildings : list (Feature Geometry))
  (bbox : Geometry) (boundariesInBBox : list (Feature Geometry))
  : list (Feature Geometry) :=
  match buildings with
  | [] => boundariesInBBox
  | building :: rest =>
      if intersects (geometry building) (buffer bbox 50)
      then defineBorders_loop rest bbox (boundariesInBBox ++ [building])
      else defineBorders_loop rest bbox boundariesInBBox
  end.

Definition defineBorders (buildings : list (Feature Geometry))
  (bbox : Geometry) : list (Feature Geometry) :=
  defineBorders_loop buildings bbox [].

(** The test of the loop body, as a predicate on buildings. *)
Definition near (bbox : Geometry) (building : Feature Geometry) : bool :=
  intersects (geometry building) (buffer bbox 50).

(** *** [findStations] *)

(** One of the four collecting loops: the features of a layer that
    intersect [bbox] are appended with the layer's tag. *)
Fixpoint collect (features : list (Feature Point)) (tag : string)
  (bbox : Geometry) (stationsInBBox : list Station) : list Station :=
  match features with
  | [] => stationsInBBox
  | feature :: rest =>
      if intersects (shape_point (geometry feature)) bbox
      then collect rest tag bbox (stationsInBBox ++ [(feature, tag)])
      else collect rest tag bbox stationsInBBox
  end.

Definition collectAll (bahnStations busStations radStations parkStations
  : list (Feature Point)) (bbox : Geometry) : list Station :=
  collect parkStations "Auto" bbox
    (collect radStations "Rad" bbox
       (collect busStations "Bus" bbox
          (collect bahnStations "Bahn" bbox []))).

(** [for station in stationsInBBox] while the body removes from that same
    list: the iterator holds an index [i], stops when [i] is past the end
    of the current list, and moves to [i + 1] whatever the body did.
    [steps] bounds the number of iterations; the length of the list is
    enough. *)
Fixpoint scanStations (steps : nat) (gebaeude : Feature Geometry) (i : nat)
  (stationsInBBox : list Station) : list Station :=
  match steps with
  | O => stationsInBBox
  | S steps' =>
      match nth_error stationsInBBox i with
      | None => stationsInBBox
      | Some station =>
          if intersects (shape_point (geometry (fst station)))
                        (geometry gebaeude)
          then scanStations steps' gebaeude (S i)
                 (remove_first station stationsInBBox)
          else scanStations steps' gebaeude (S i) stationsInBBox
      end
  end.

Definition removeInside (stationsInBBox : list Station)
  (gebaeude : Feature Geometry) : list Station :=
  scanStations (List.length stationsInBBox) gebaeude 0 stationsInBBox.

(** [for gebaeude in boundariesInBBox: for station in stationsInBBox: ...] *)
Definition excludeBuildings (boundariesInBBox : list (Feature Geometry))
  (stationsInBBox : list Station) : list Station :=
  fold_left removeInside boundariesInBBox stationsInBBox.

(** The stations one call works out for its [bbox], before the test on
    their number. *)
Definition stationsOf (bahnStations busStations radStations parkStations
  : list (Feature Point)) (bbox : Geometry)
  (boundariesInBBox : list (Feature Geometry)) : list Station :=
  excludeBuildings boundariesInBBox
    (collectAll bahnStations busStations radStations parkStations bbox).

Fixpoint findStations (fuel : nat) (bahnStations busStations radStations
  parkStations : list (Feature Point)) (bbox : Geometry)
  (boundariesInBBox : list (Feature Geometry)) : result (list Station) :=
  match fuel with
  | O => Raise RecursionError
  | S fuel' =>
      let stationsInBBox :=
        stationsOf bahnStations busStations radStations parkStations bbox
          boundariesInBBox in
      if (List.length stationsInBBox <? 5)%nat
      then findStations fuel' bahnStations busStations radStations
             parkStations (buffer bbox 100) boundariesInBBox
      else Ok stationsInBBox
  end.

(** *** Grouping the gateways by transport

    [defineStartVariables] writes the stations to the gateways layer,
    reads the layer back and sorts the geometries by their "transport"
    property. *)
Definition groups : Type :=
  (list Point * list Point * list Point * list Point)%type.

Fixpoint groupByTransport (gatewaysList : list Station) (acc : groups)
  : groups :=
  match gatewaysList with
  | [] => acc
  | feature :: rest =>
      let '(bahnPeds, busPeds, radPeds, autoPeds) := acc in
      let g := geometry (fst feature) in
      groupByTransport rest
        (if String.eqb (snd feature) "Bahn"
         then (bahnPeds ++ [g], busPeds, radPeds, autoPeds)
         else if String.eqb (snd feature) "Bus"
         then (bahnPeds, busPeds ++ [g], radPeds, autoPeds)
         else if String.eqb (snd feature) "Rad"
         then (bahnPeds, busPeds, radPeds ++ [g], autoPeds)
         else if String.eqb (snd feature) "Auto"
         then (bahnPeds, busPeds, radPeds, autoPeds ++ [g])
         else acc)
  end.

(** *** [randomPoint] *)

(** The [for pts in startPositions] loop of [randomPoint] for the
    candidate [p]: a position closer than 0.3 triggers [retry], the
    recursive call, whose result is dropped, and the loop goes on; the
    first position that is not closer returns [p]; so does the end of the
    list. *)
Fixpoint scanPositions (retry : M G Point) (p : Point) (pts : list Point)
  : M G Point :=
  match pts with
  | [] => ret p
  | a :: rest =>
      if distance p a <? 0.3
      then _ <- retry ;; scanPositions retry p rest
      else ret p
  end.

Fixpoint randomPoint (fuel : nat) (point : Point)
  (startPositions : list Point) : M G Point :=
  match fuel with
  | O => raise RecursionError
  | S fuel' =>
      x <- uniform (pt_x point - 5) (pt_x point + 5) ;;
      y <- uniform (pt_y point - 5) (pt_y point + 5) ;;
      scanPositions (randomPoint fuel' point startPositions)
        (mkPoint x y) startPositions
  end.

(** *** The placement loop of [defineStartVariables] *)

(** The gateways the draw [x] selects: the [if]/[elif] chain on the
    cumulated factors. *)
Definition selectGateways (x : float) (f : factors) (peds : groups)
  : list Point :=
  let '(bahnPeds, busPeds, radPeds, autoPeds) := peds in
  if x <? bahnFactor f then bahnPeds
  else if x <? bahnFactor f + busFactor f then busPeds
  else if x <? bahnFactor f + busFactor f + radFactor f then radPeds
  else autoPeds.

(** The body the four branches share: a gateway of the selected list, a
    point around it, appended to the start positions. *)
Definition placeAt (fuel : nat) (gateways : list Point)
  (startPositions : list Point) : M G (list Point) :=
  pPos <- randint 0 (Z.of_nat (List.length gateways) - 1) ;;
  gateway <- lift (py_index gateways pPos) ;;
  p <- randomPoint fuel gateway startPositions ;;
  ret (startPositions ++ [p]).

Definition placePedestrian (fuel : nat) (f : factors) (peds : groups)
  (startPositions : list Point) : M G (list Point) :=
  x <- draw_random ;;
  placeAt fuel (selectGateways x f peds) startPositions.

(** [for i in range(peds)] *)
Fixpoint placeAll (fuel : nat) (f : factors) (gateways : groups)
  (peds : nat) (startPositions : list Point) : M G (list Point) :=
  match peds with
  | O => ret startPositions
  | S peds' =>
      startPositions' <- placePedestrian fuel f gateways startPositions ;;
      placeAll fuel f gateways peds' startPositions'
  end.

(** *** The mission table *)

(** [startPositions[random.randint(0, len(startPositions)-1)]] *)
Definition randomStart (startPositions : list Point) : M G Point :=
  i <- randint 0 (Z.of_nat (List.length startPositions) - 1) ;;
  lift (py_index startPositions i).

(** [a] is the start position at the index [randint] draws in state [g],
    and [g'] is the state after the draw. *)
Definition drawnFrom (startPositions : list Point) (g : G) (a : Point)
  (g' : G) : Prop :=
  exists i, randint 0 (Z.of_nat (List.length startPositions) - 1) g
            = Ok (i, g') /\
            nth_error startPositions (Z.to_nat i) = Some a.

(** The row of a pedestrian in the target mode. *)
Definition targetRow (tx ty : float) (val : Point) : Row :=
  (val, "FollowWayPointsMentalModel"%string, [mkPoint tx ty]).

(** [target] is [None] for the value [0] of the source and the pair of
    coordinates otherwise. *)
Definition generatedMission (target : option (float * float))
  (startPositions : list Point) : M G (list Point) :=
  match target with
  | None =>
      a <- randomStart startPositions ;;
      b <- randomStart startPositions ;;
      c <- randomStart startPositions ;;
      d <- randomStart startPositions ;;
      ret [a; b; c; d]
  | Some (tx, ty) => ret [mkPoint tx ty]
  end.

(** [for val in startPositions], one row each (after the header). *)
Fixpoint missionRows (target : option (float * float))
  (startPositions : list Point) (vals : list Point) : M G (list Row) :=
  match vals with
  | [] => ret []
  | val :: rest =>
      mission <- generatedMission target startPositions ;;
      rows <- missionRows target startPositions rest ;;
      ret ((val, "FollowWayPointsMentalModel"%string, mission) :: rows)
  end.

(** *** [defineStartVariables] *)

Record Layers : Type := mkLayers {
  boundaries : list (Feature Geometry);
  bahn : list (Feature Point);
  bus : list (Feature Point);
  rad : list (Feature Point);
  park : list (Feature Point)
}.

(** What a run writes: the clipped boundaries, the gateways, the start
    positions (each numbered from [0]) and the mission rows. *)
Record Output : Type := mkOutput {
  boundaries_cut : list (Z * Geometry);
  gateways : list (Z * Station);
  gencrowd : list (Z * Point);
  pedMission : list Row
}.

(** [i = 0; for feature in l: write(feature, i); i = i + 1] *)
Fixpoint numbered {A : Type} (i : Z) (l : list A) : list (Z * A) :=
  match l with
  | [] => []
  | a :: rest => (i, a) :: numbered (i + 1) rest
  end.

Definition defineStartVariables (fuel : nat) (layers : Layers)
  (bbox_minx bbox_miny bbox_maxx bbox_maxy : float) (peds : nat)
  (target : option (float * float)) : M G Output :=
  let bbox := box bbox_minx bbox_miny bbox_maxx bbox_maxy in
  let boundariesInBBox := defineBorders (boundaries layers) bbox in
  stationsInBBox <-
    lift (findStations fuel (bahn layers) (bus layers) (rad layers)
            (park layers) bbox boundariesInBBox) ;;
  let peds4 := groupByTransport stationsInBBox ([], [], [], []) in
  let '(bahnPeds, busPeds, radPeds, autoPeds) := peds4 in
  let f := factoring bahnPeds busPeds radPeds autoPeds in
  startPositions <- placeAll fuel f peds4 peds [] ;;
  rows <- missionRows target startPositions startPositions ;;
  ret {| boundaries_cut := numbered 0 (map (@geometry _) boundariesInBBox);
         gateways := numbered 0 stationsInBBox;
         gencrowd := numbered 0 startPositions;
         pedMission := rows |}.

End Pipeline.

Arguments Layers Geometry : clear implicits.
Arguments Output Geometry : clear implicits.

(** [Subsequence l l']: [l] is [l'] with some elements left out, the
    others in their order. *)
Inductive Subsequence {A : Type} : list A -> list A -> Prop :=
| sub_nil : Subsequence [] []
| sub_skip a l l' : Subsequence l l' -> Subsequence l (a :: l')
| sub_keep a l l' : Subsequence l l' -> Subsequence (a :: l) (a :: l').

(** The box after [k] expansions by [buffer(100)]. *)
Definition expanded {Geometry : Type} {Shp : Shapely Geometry} (k : nat)
  (bbox : Geometry) : Geometry :=
  Nat.iter k (fun b => buffer b 100%float) bbox.

(** ** Concrete layers

    Small inputs over the rectangle geometry and the tape generator, on
    which the definitions above are evaluated. *)

Module Scenario.

Local Open Scope float_scope.

Definition station (i : Z) (x y : float) : Feature Point :=
  mkFeature i (mkPoint x y).

(** The simulated area. *)
Definition area : Rect := mkRect 0 0 100 100.

(** One building in a corner of the area. *)
Definition hall : Feature Rect := mkFeature 0 (mkRect 0 0 10 10).

(** Six rail stations, the first two of them inside [hall]. *)
Definition railInHall : list (Feature Point) :=
  [station 0 1 1; station 1 2 2; station 2 50 50; station 3 60 60;
   station 4 70 70; station 5 80 80].

(** Five rail stations, four in the area and one 50 units outside. *)
Definition railSpread : list (Feature Point) :=
  [station 0 10 10; station 1 20 20; station 2 30 30; station 3 40 40;
   station 4 150 150].

(** Five rail stations in the area, no building, no other layer. *)
Definition railOnly : Layers Rect :=
  mkLayers [] [station 0 10 10; station 1 20 20; station 2 30 30;
               station 3 40 40; station 4 50 50] [] [] [].

(** The draws of [random()] that give 0.5 and about 0.9. *)
Definition half : Z := 2 ^ 52.
Definition ninety : Z := 8106479329266893.

(** The draws of a run with two pedestrians on [railOnly]: each
    pedestrian draws its mode (0.5), its gateway (index 0) and its
    coordinates (0.5 and 0.5, the gateway itself); the second one is on
    top of the first, so [randomPoint] calls itself and draws again (0.9
    and 0.9). The draws of the missions follow as zeros. *)
Definition twoOnOneSpot : Tape :=
  [half; 0; half; half;
   half; 0; half; half; ninety; ninety]%Z.

(** Gateways of three modes, none for cars. *)
Definition noCars : groups :=
  ([mkPoint 10 10], [mkPoint 20 20], [mkPoint 30 30], []).

(** The largest value of [random()], [1 - 2^-53]. *)
Definition almostOne : Z := 2 ^ 53 - 1.

End Scenario.

(** ** Views of the locator's lists

    Predicates and lists in which the results of the loops are stated. *)

Section Views.

Context {Geometry : Type} {Shp : Shapely Geometry}.

(** The test of the collecting loops, on a feature. *)
Definition inBox (bbox : Geometry) (feature : Feature Point) : bool :=
  intersects (shape_point (geometry feature)) bbox.

(** The test of the removal loop, on a station. *)
Definition hits (gebaeude : Feature Geometry) (station : Station) : bool :=
  intersects (shape_point (geometry (fst station))) (geometry gebaeude).

End Views.

(** The features of a layer with the layer's tag. *)
Definition tagged (tag : string) (features : list (Feature Point))
  : list Station :=
  map (fun feature => (feature, tag)) features.

(** The geometries of the gateways whose "transport" is [tag]. *)
Definition geometriesOf (tag : string) (gatewaysList : list Station)
  : list Point :=
  map (fun station : Station => geometry (fst station))
    (filter (fun station : Station => String.eqb (snd station) tag)
       gatewaysList).

(** One of the four values of "transport". *)
Definition transportTag (tag : string) : Prop :=
  tag = "Bahn"%string \/ tag = "Bus"%string \/ tag = "Rad"%string \/
  tag = "Auto"%string.

(** The candidate [randomPoint] makes of the draws [u] and [v] around
    [point]: [Point(uniform(x - 5, x + 5), uniform(y - 5, y + 5))]. *)
Definition candidate (point : Point) (u v : float) : Point :=
  mkPoint (pt_x point - 5 + (pt_x point + 5 - (pt_x point - 5)) * u)
          (pt_y point - 5 + (pt_y point + 5 - (pt_y point - 5)) * v)%float.

(** [x] is a value of [random()]: [0 <= x < 1], as the two tests the
    placement loop depends on. *)
Definition unitDraw (x : float) : Prop :=
  (x <? 0)%float = false /\ (x <? 1)%float = true.

(** The factors of four groups of gateways. *)
Definition factorsOf (peds : groups) : ModalSplit.factors :=
  let '(bahnPeds, busPeds, radPeds, autoPeds) := peds in
  ModalSplit.factoring bahnPeds busPeds radPeds autoPeds.

(** The groups in which a draw can select a mode without gateways: rail,
    bus and bike have gateways, car has none. *)
Definition shortOfOne (peds : groups) : Prop :=
  let '(bahnPeds, busPeds, radPeds, autoPeds) := peds in
  bahnPeds <> [] /\ busPeds <> [] /\ radPeds <> [] /\ autoPeds = [].

(** The identifiers [0, 1, ..., n - 1] of a written layer. *)
Definition identifiers (n : nat) : list Z := map Z.of_nat (seq 0 n).

(** A second executable generator, whose [random()] is in [0, 1) for
    every state: scripted floats (a float outside [0, 1) counts as 0)
    and scripted integers. *)
Definition Script : Type := (list float * list Z)%type.

Definition script_random (s : Script) : float * Script :=
  match fst s with
  | [] => (0%float, s)
  | x :: xs =>
      ((if (x <? 0)%float then 0 else if (x <? 1)%float then x else 0)%float,
       (xs, snd s))
  end.

Definition script_randint (a b : Z) : M Script Z :=
  fun s => if (b <? a)%Z then Raise ValueError
           else match snd s with
                | [] => Ok (a, s)
                | k :: ks => Ok ((a + k mod (b - a + 1))%Z, (fst s, ks))
                end.

#[export] Instance ScriptRandom : RandomModule Script :=
  {| random := script_random; randint := script_randint |}.

(** ** The event handlers

    The module-level defaults and the two handlers [joined] subscribes:
    [startSimulation] and [startSimulationTarget]. The state they share
    is the global [parameterSet]. A handler returns the new value of
    [parameterSet] and the output of the run it made, if it made one;
    the engine is started on that output ([execute], not modelled). *)

Module Globals.

Definition bbox_minx : float := 565900.000.
Definition bbox_miny : float := 5933766.750.
Definition bbox_maxx : float := 566173.405.
Definition bbox_maxy : float := 5933998.937.
Definition peds : nat := 30.

(** [target = 0] *)
Definition target : option (float * float) := None.

(** [parameterSet = False] *)
Definition parameterSet : bool := false.

End Globals.

Section Handlers.

Context {Geometry : Type} {Shp : Shapely Geometry}.
Context {G : Type} {R : RandomModule G}.

(** [pyproj.transform] from EPSG:3857 to EPSG:25832. *)
Variable transform : float -> float -> float * float.

(** The layers the data files hold. *)
Variable layers : Layers Geometry.

(** [startSimulationTarget(x)]: the target is the transformed [x]; the
    box and the number of pedestrians are the globals. *)
Definition startSimulationTarget (fuel : nat) (x : list float)
  (parameterSet : bool) : M G (bool * option (Output Geometry)) :=
  x0 <- lift (py_index x 0) ;;
  x1 <- lift (py_index x 1) ;;
  let target := transform x0 x1 in
  if parameterSet
  then out <- defineStartVariables fuel layers Globals.bbox_minx
                Globals.bbox_miny Globals.bbox_maxx Globals.bbox_maxy
                Globals.peds (Some target) ;;
       ret (parameterSet, Some out)
  else ret (parameterSet, None).

(** [startSimulation(extend, ped, type)]: the box and [peds] are locals
    made of the message; [target] is the global. *)
Definition startSimulation (fuel : nat) (extend : list float) (ped : Z)
  (type : Z) (parameterSet : bool) : M G (bool * option (Output Geometry)) :=
  bbox_minx <- lift (py_index extend 0) ;;
  bbox_miny <- lift (py_index extend 1) ;;
  bbox_maxx <- lift (py_index extend 2) ;;
  bbox_maxy <- lift (py_index extend 3) ;;
  if (type =? 0)%Z
  then out <- defineStartVariables fuel layers bbox_minx bbox_miny
                bbox_maxx bbox_maxy (Z.to_nat ped) Globals.target ;;
       ret (parameterSet, Some out)
  else ret (true, None).

End Handlers.

(** The messages of the two sender scripts. *)
Module Senders.

Definition mapExtent : list float :=
  [565900.000; 5933766.750; 566173.405; 5933998.937]%float.
Definition peds : Z := 30.
Definition ty : Z := 1.
Definition a : list float := [1112914.451; 7085238.525]%float.

End Senders.

(** Every [random()] is in [0, 1). *)
Definition random_contract (G : Type) {R : RandomModule G} : Prop :=
  forall g, unitDraw (fst (random g)).

Arguments random_contract G {R}.

(** More concrete layers. *)
Module Cases.

Local Open Scope float_scope.

(** Two rail, two bus and one bike station in [Scenario.area], no car
    park, no building. *)
Definition threeModes : Layers Rect :=
  mkLayers []
    [Scenario.station 0 10 10; Scenario.station 1 20 20]
    [Scenario.station 0 30 30; Scenario.station 1 40 40]
    [Scenario.station 0 50 50] [].

(** A first draw just below 1. *)
Definition lastDraw : Script := ([0.9999999999999999], []).

(** Draws for one pedestrian at the first rail station. *)
Definition oneAtRail : Script := ([0.5; 0.5; 0.5], [0%Z]).

End Cases.

(** * Properties *)

(** ** The modal split *)

Section ModalSplitFacts.

Import ModalSplit.
Local Open Scope float_scope.

Variable A : Type.
Implicit Types bahnPeds busPeds radPeds autoPeds : list A.

Lemma nonempty_false (l : list A) : nonempty l = false <-> l = [].
Proof. destruct l; simpl; split; intro H; try reflexivity; discriminate. Qed.

Lemma nonempty_true (l : list A) : nonempty l = true <-> l <> [].
Proof.
  destruct l; simpl; split; intro H; try reflexivity; try discriminate.
  now elim H.
Qed.

Lemma length_zero_nonempty (l : list A) :
  List.length l = 0%nat -> nonempty l = false.
Proof. destruct l; [reflexivity | discriminate]. Qed.

(** Case analysis on the four availability tests of [factoring]. *)
Ltac availability bahnPeds busPeds radPeds autoPeds :=
  unfold factoring;
  destruct (nonempty bahnPeds) eqn:Hbahn;
  destruct (nonempty busPeds) eqn:Hbus;
  destruct (nonempty radPeds) eqn:Hrad;
  destruct (nonempty autoPeds) eqn:Hauto.

(** The factors always add up to one within [epsilon]. *)
Lemma factoring_sums_to_one bahnPeds busPeds radPeds autoPeds :
  sums_to_one (factoring bahnPeds busPeds radPeds autoPeds) = true.
Proof.
  availability bahnPeds busPeds radPeds autoPeds; vm_compute; reflexivity.
Qed.

(** With a gateway of some mode, the modes without gateways weigh [0]. *)
Lemma factoring_absent_zero bahnPeds busPeds radPeds autoPeds :
  bahnPeds <> [] \/ busPeds <> [] \/ radPeds <> [] \/ autoPeds <> [] ->
  absent_modes_weigh_nothing bahnPeds busPeds radPeds autoPeds.
Proof.
  intros Hsome. unfold absent_modes_weigh_nothing.
  assert (Hbits : nonempty bahnPeds || nonempty busPeds ||
                  nonempty radPeds || nonempty autoPeds = true).
  { rewrite !orb_true_iff, !nonempty_true. tauto. }
  repeat split; intros Hlen; apply length_zero_nonempty in Hlen;
    revert Hbits; availability bahnPeds busPeds radPeds autoPeds;
    intros Hbits; try discriminate; reflexivity.
Qed.

(** C3, as amended: the four factors returned by [factoring] add up to
    1.0 within epsilon for every input, and whenever at least one of the
    four lists is non-empty, every mode whose list is empty gets the
    factor exactly 0. *)
Theorem factoring_distribution bahnPeds busPeds radPeds autoPeds :
  sums_to_one (factoring bahnPeds busPeds radPeds autoPeds) = true /\
  (bahnPeds <> [] \/ busPeds <> [] \/ radPeds <> [] \/ autoPeds <> [] ->
   absent_modes_weigh_nothing bahnPeds busPeds radPeds autoPeds).
Proof.
  split; [apply factoring_sums_to_one | apply factoring_absent_zero].
Qed.

(** C4: [factoring] depends on its inputs only through the four tests
    [len(...) > 0]; for each of the 15 availability patterns with a mode
    present it returns the row of the specification's table, and with all
    four modes present it returns (0.55, 0.25, 0.10, 0.10). *)
Theorem factoring_follows_table bahnPeds busPeds radPeds autoPeds :
  (forall bahnPeds' busPeds' radPeds' autoPeds',
      nonempty bahnPeds' = nonempty bahnPeds ->
      nonempty busPeds' = nonempty busPeds ->
      nonempty radPeds' = nonempty radPeds ->
      nonempty autoPeds' = nonempty autoPeds ->
      factoring bahnPeds' busPeds' radPeds' autoPeds' =
      factoring bahnPeds busPeds radPeds autoPeds) /\
  (bahnPeds <> [] \/ busPeds <> [] \/ radPeds <> [] \/ autoPeds <> [] ->
   table_weights (nonempty bahnPeds) (nonempty busPeds) (nonempty radPeds)
     (nonempty autoPeds)
   = Some (factoring bahnPeds busPeds radPeds autoPeds)) /\
  (bahnPeds <> [] -> busPeds <> [] -> radPeds <> [] -> autoPeds <> [] ->
   factoring bahnPeds busPeds radPeds autoPeds = (0.55, 0.25, 0.1, 0.1)).
Proof.
  split; [|split].
  - intros b' u' r' a' Hb Hu Hr Ha. unfold factoring.
    now rewrite Hb, Hu, Hr, Ha.
  - intros Hsome.
    assert (Hbits : nonempty bahnPeds || nonempty busPeds ||
                    nonempty radPeds || nonempty autoPeds = true).
    { rewrite !orb_true_iff, !nonempty_true. tauto. }
    revert Hbits. availability bahnPeds busPeds radPeds autoPeds;
      intros Hbits; try discriminate; vm_compute; reflexivity.
  - intros Hb Hu Hr Ha. apply nonempty_true in Hb, Hu, Hr, Ha.
    unfold factoring. now rewrite Hb, Hu, Hr, Ha.
Qed.

(** C10: [factoring] is a total function (it returns factors for every
    four lists, it has no way to raise), and with four empty lists it
    returns (0, 0, 0, 1): the whole weight goes to the car mode. *)
Theorem factoring_without_gateways :
  (forall bahnPeds busPeds radPeds autoPeds,
      exists f, factoring bahnPeds busPeds radPeds autoPeds = f) /\
  factoring (@nil A) (@nil A) (@nil A) (@nil A) = (0, 0, 0, 1).
Proof. split; [intros; eexists|]; reflexivity. Qed.

End ModalSplitFacts.

(** C3 as stated fails: with four empty lists the car mode has no
    gateway and gets the factor 1. *)
Lemma factoring_car_weight_without_cars :
  ~ (ModalSplit.sums_to_one
       (ModalSplit.factoring (@nil Point) (@nil Point) (@nil Point)
          (@nil Point)) = true /\
     ModalSplit.absent_modes_weigh_nothing
       (@nil Point) (@nil Point) (@nil Point) (@nil Point)).
Proof.
  unfold ModalSplit.absent_modes_weigh_nothing.
  intros (_ & _ & _ & _ & Hcar).
  specialize (Hcar eq_refl).
  revert Hcar. apply (float_neq_by (fun w => PrimFloat.ltb 0 w)).
  vm_compute. discriminate.
Qed.

Lemma factoring_distribution_witness :
  ModalSplit.absent_modes_weigh_nothing [mkPoint 10 10] (@nil Point) [] [].
Proof.
  apply (proj2 (factoring_distribution [mkPoint 10 10] [] [] [])).
  left. discriminate.
Defined.

Lemma factoring_follows_table_witness :
  ModalSplit.factoring [mkPoint 1 1] [mkPoint 2 2] [mkPoint 3 3] [mkPoint 4 4]
  = (0.55, 0.25, 0.1, 0.1)%float.
Proof.
  apply (proj2 (proj2 (factoring_follows_table
           [mkPoint 1 1] [mkPoint 2 2] [mkPoint 3 3] [mkPoint 4 4])));
    discriminate.
Defined.

(** ** The region filter *)

Section RegionFilterFacts.

Context {Geometry : Type} {Shp : Shapely Geometry}.
Implicit Types buildings : list (Feature Geometry).

Lemma Subsequence_refl {A : Type} (l : list A) : Subsequence l l.
Proof. induction l; constructor; assumption. Qed.

Lemma Subsequence_filter {A : Type} (keep : A -> bool) (l : list A) :
  Subsequence (filter keep l) l.
Proof.
  induction l as [|a l IH]; simpl; [constructor|].
  destruct (keep a); constructor; assumption.
Qed.

Lemma defineBorders_loop_filter buildings bbox acc :
  defineBorders_loop buildings bbox acc = acc ++ filter (near bbox) buildings.
Proof.
  revert acc. induction buildings as [|b rest IH]; intros acc; simpl.
  - now rewrite app_nil_r.
  - unfold near at 1. destruct (intersects _ _); rewrite IH.
    + now rewrite <- app_assoc.
    + reflexivity.
Qed.

Lemma defineBorders_filter buildings bbox :
  defineBorders buildings bbox = filter (near bbox) buildings.
Proof. unfold defineBorders. now rewrite defineBorders_loop_filter. Qed.

(** C8: the result of [defineBorders] is a subsequence of [buildings] (a
    subset in input order); a building is in it exactly when its geometry
    intersects [bbox.buffer(50)]; a building that does not intersect the
    buffered box is left out; and when the buffered box meets whatever
    building the box meets, every building that intersects the box is
    kept. *)
Theorem defineBorders_selects buildings bbox :
  Subsequence (defineBorders buildings bbox) buildings /\
  defineBorders buildings bbox = filter (near bbox) buildings /\
  (forall b, In b (defineBorders buildings bbox) <->
             In b buildings /\
             intersects (geometry b) (buffer bbox 50%float) = true) /\
  (forall b, intersects (geometry b) (buffer bbox 50%float) = false ->
             ~ In b (defineBorders buildings bbox)) /\
  ((forall b, In b buildings -> intersects (geometry b) bbox = true ->
              intersects (geometry b) (buffer bbox 50%float) = true) ->
   forall b, In b buildings -> intersects (geometry b) bbox = true ->
             In b (defineBorders buildings bbox)).
Proof.
  rewrite defineBorders_filter.
  split; [|split; [|split; [|split]]].
  - apply Subsequence_filter.
  - reflexivity.
  - intros b. rewrite filter_In. reflexivity.
  - intros b Hfar Hin. apply filter_In in Hin. destruct Hin as [_ Hin].
    unfold near in Hin. congruence.
  - intros Hcover b Hin Hbox. apply filter_In. split; [assumption|].
    apply Hcover; assumption.
Qed.

End RegionFilterFacts.

Lemma defineBorders_selects_witness :
  let inside := mkFeature 0 (mkRect 10 10 20 20) in
  let far := mkFeature 1 (mkRect 500 500 600 600) in
  In inside (defineBorders [inside; far] (mkRect 0 0 100 100)).
Proof.
  intros inside far.
  apply (proj2 (proj2 (proj2 (proj2
           (defineBorders_selects [inside; far] (mkRect 0 0 100 100)))))).
  - intros b [<-|[<-|[]]] Hbox; [reflexivity | discriminate Hbox].
  - left; reflexivity.
  - reflexivity.
Defined.

(** ** The gateway locator *)

Section LocatorFacts.

Context {Geometry : Type} {Shp : Shapely Geometry}.

Variables bahnStations busStations radStations parkStations
  : list (Feature Point).
Variable boundariesInBBox : list (Feature Geometry).

#[local] Abbreviation stationsIn bbox :=
  (stationsOf bahnStations busStations radStations parkStations bbox
     boundariesInBBox).
#[local] Abbreviation locate fuel bbox :=
  (findStations fuel bahnStations busStations radStations parkStations bbox
     boundariesInBBox).

Lemma remove_first_length (station : Station) (l : list Station) :
  (List.length (remove_first station l) <= List.length l)%nat.
Proof.
  induction l as [|s rest IH]; simpl; [lia|].
  destruct (station_eqb s station); simpl; lia.
Qed.

(** The bound [steps] of [scanStations] does not matter once it covers
    the elements from the iterator's index on. *)
Lemma scanStations_steps (gebaeude : Feature Geometry) (steps steps' i : nat)
  (l : list Station) :
  (List.length l - i <= steps)%nat -> (List.length l - i <= steps')%nat ->
  scanStations steps gebaeude i l = scanStations steps' gebaeude i l.
Proof.
  revert steps' i l.
  induction steps as [|steps IH]; intros steps' i l Hs Hs'.
  - assert (Hnone : nth_error l i = None) by (apply nth_error_None; lia).
    destruct steps'; simpl; [reflexivity | now rewrite Hnone].
  - destruct steps' as [|steps'].
    + assert (Hnone : nth_error l i = None) by (apply nth_error_None; lia).
      simpl. now rewrite Hnone.
    + simpl. destruct (nth_error l i) as [station|]; [|reflexivity].
      destruct (intersects _ _).
      * pose proof (remove_first_length station l). apply IH; lia.
      * apply IH; lia.
Qed.

Lemma findStations_below fuel bbox :
  (List.length (stationsIn bbox) < 5)%nat ->
  locate (S fuel) bbox = locate fuel (buffer bbox 100%float).
Proof.
  intros Hfew. simpl.
  apply Nat.ltb_lt in Hfew. now rewrite Hfew.
Qed.

Lemma findStations_enough fuel bbox :
  (5 <= List.length (stationsIn bbox))%nat ->
  locate (S fuel) bbox = Ok (stationsIn bbox).
Proof.
  intros Hmany. simpl.
  apply Nat.ltb_ge in Hmany. now rewrite Hmany.
Qed.

Lemma expanded_succ (k : nat) (bbox : Geometry) :
  expanded (S k) bbox = expanded k (buffer bbox 100%float).
Proof. unfold expanded. apply Nat.iter_succ_r. Qed.

(** What a returned list is: the stations of the first expanded box that
    has five of them. *)
Lemma findStations_returns fuel bbox l :
  locate fuel bbox = Ok l ->
  exists k, (k < fuel)%nat /\ l = stationsIn (expanded k bbox) /\
            (5 <= List.length l)%nat /\
            forall j, (j < k)%nat ->
                      (List.length (stationsIn (expanded j bbox)) < 5)%nat.
Proof.
  revert bbox. induction fuel as [|fuel IH]; intros bbox Hrun;
    [discriminate|].
  destruct (Nat.ltb_spec (List.length (stationsIn bbox)) 5) as [Hfew|Hmany].
  - rewrite findStations_below in Hrun by assumption.
    destruct (IH _ Hrun) as (k & Hk & Hl & Hlen & Hbefore).
    exists (S k). rewrite expanded_succ. repeat split; try assumption; [lia|].
    intros [|j] Hj; [exact Hfew|].
    rewrite expanded_succ. apply Hbefore. lia.
  - rewrite findStations_enough in Hrun by assumption.
    injection Hrun as <-. exists 0%nat. repeat split; try assumption; lia.
Qed.

(** With a call depth beyond the number of expansions needed, the
    locator returns. *)
Lemma findStations_terminates k fuel bbox :
  (forall j, (j < k)%nat ->
             (List.length (stationsIn (expanded j bbox)) < 5)%nat) ->
  (5 <= List.length (stationsIn (expanded k bbox)))%nat ->
  (k < fuel)%nat ->
  locate fuel bbox = Ok (stationsIn (expanded k bbox)).
Proof.
  revert fuel bbox. induction k as [|k IH]; intros fuel bbox Hbefore Hk Hfuel;
    (destruct fuel as [|fuel]; [lia|]).
  - now apply findStations_enough.
  - rewrite findStations_below by (apply (Hbefore 0%nat); lia).
    rewrite expanded_succ in *. apply IH; [|assumption|lia].
    intros j Hj. rewrite <- expanded_succ. apply Hbefore. lia.
Qed.

(** C6: with fewer than 5 stations left for the current box, the locator
    is its own run on [bbox.buffer(100)] with the same boundaries;
    whenever it returns, the list holds at least 5 stations; with at
    least 5 for the initial box it returns them without any expansion;
    and it does return, with the stations of the first expanded box that
    has 5, as soon as the call depth allows that many expansions. *)
Theorem findStations_expands bbox :
  (forall fuel, (List.length (stationsIn bbox) < 5)%nat ->
                locate (S fuel) bbox = locate fuel (buffer bbox 100%float)) /\
  (forall fuel l, locate fuel bbox = Ok l -> (5 <= List.length l)%nat) /\
  (forall fuel, (5 <= List.length (stationsIn bbox))%nat ->
                locate (S fuel) bbox = Ok (stationsIn bbox)) /\
  (forall k fuel,
      (forall j, (j < k)%nat ->
                 (List.length (stationsIn (expanded j bbox)) < 5)%nat) ->
      (5 <= List.length (stationsIn (expanded k bbox)))%nat ->
      (k < fuel)%nat ->
      locate fuel bbox = Ok (stationsIn (expanded k bbox))).
Proof.
  split; [|split; [|split]].
  - intros fuel. apply findStations_below.
  - intros fuel l Hrun.
    destruct (findStations_returns _ _ Hrun) as (k & _ & _ & Hlen & _).
    exact Hlen.
  - intros fuel. apply findStations_enough.
  - intros k fuel. apply findStations_terminates.
Qed.

End LocatorFacts.

Lemma findStations_expands_witness :
  findStations 2 Scenario.railSpread [] [] [] Scenario.area []
  = Ok (stationsOf Scenario.railSpread [] [] []
          (expanded 1 Scenario.area) []).
Proof.
  apply (proj2 (proj2 (proj2
           (findStations_expands Scenario.railSpread [] [] [] []
              Scenario.area))) 1%nat 2%nat).
  - intros [|j] Hj; [vm_compute; lia | lia].
  - vm_compute. lia.
  - lia.
Defined.

(** C2 fails on the code: of two stations inside the same building that
    follow each other in the list, the second one is skipped by the
    iterator when the first one is removed, and is returned. *)
Lemma findStations_keeps_station_inside_building :
  let boundariesInBBox := defineBorders [Scenario.hall] Scenario.area in
  let inside := (Scenario.station 1 2 2, "Bahn"%string) in
  boundariesInBBox = [Scenario.hall] /\
  findStations 1 Scenario.railInHall [] [] [] Scenario.area boundariesInBBox
  = Ok [inside;
        (Scenario.station 2 50 50, "Bahn"%string);
        (Scenario.station 3 60 60, "Bahn"%string);
        (Scenario.station 4 70 70, "Bahn"%string);
        (Scenario.station 5 80 80, "Bahn"%string)] /\
  intersects (shape_point (geometry (fst inside))) (geometry Scenario.hall)
  = true.
Proof. vm_compute. repeat split. Qed.

(** ** The crowd generator *)

Section CrowdFacts.

Context {G : Type} {R : RandomModule G}.

Import ModalSplit.
Local Open Scope float_scope.

Lemma bind_Ok {A B : Type} (m : M G A) (k : A -> M G B) g a g' :
  m g = Ok (a, g') -> bind m k g = k a g'.
Proof. unfold bind. now intros ->. Qed.

Lemma bind_Raise {A B : Type} (m : M G A) (k : A -> M G B) g e :
  m g = Raise e -> bind m k g = Raise e.
Proof. unfold bind. now intros ->. Qed.

Lemma bind_inv_Ok {A B : Type} (m : M G A) (k : A -> M G B) g b g'' :
  bind m k g = Ok (b, g'') ->
  exists a g', m g = Ok (a, g') /\ k a g' = Ok (b, g'').
Proof.
  unfold bind. destruct (m g) as [[a g']|e]; [|discriminate].
  intros Hk. now exists a, g'.
Qed.

Lemma bind_inv_Raise {A B : Type} (m : M G A) (k : A -> M G B) g e :
  bind m k g = Raise e ->
  m g = Raise e \/ exists a g', m g = Ok (a, g') /\ k a g' = Raise e.
Proof.
  unfold bind. destruct (m g) as [[a g']|e']; intros Hk.
  - right. now exists a, g'.
  - left. congruence.
Qed.

Lemma uniform_Ok (a b : float) g :
  exists u g', uniform a b g = Ok (u, g').
Proof.
  unfold uniform, bind, draw_random, ret.
  destruct (random g) as [u g']. now eexists; eexists.
Qed.

(** [l[i]] is an element of [l] whenever [0 <= i < len(l)]. *)
Lemma py_index_in_range {A : Type} (l : list A) (i : Z) :
  (0 <= i <= Z.of_nat (List.length l) - 1)%Z ->
  exists a, py_index l i = Ok a /\ nth_error l (Z.to_nat i) = Some a.
Proof.
  intros Hi. unfold py_index. cbv zeta.
  assert (Hneg : (i <? 0)%Z = false) by (apply Z.ltb_ge; lia).
  assert (Hbig : (Z.of_nat (List.length l) <=? i)%Z = false)
    by (apply Z.leb_gt; lia).
  rewrite Hneg, Hneg, Hbig. simpl. destruct (nth_error l (Z.to_nat i)) as [a|] eqn:Hnth.
  - exists a. split; reflexivity.
  - apply nth_error_None in Hnth. lia.
Qed.

(** The only exception out of [randomPoint] is the one of the call depth. *)
Lemma scanPositions_raises (retry : M G Point) (p : Point) pts g e :
  (forall g0 e0, retry g0 = Raise e0 -> e0 = RecursionError) ->
  scanPositions retry p pts g = Raise e -> e = RecursionError.
Proof.
  intros Hretry. revert g. induction pts as [|a rest IH]; intros g; simpl.
  - discriminate.
  - destruct (distance p a <? 0.3); [|discriminate].
    intros Hrun. apply bind_inv_Raise in Hrun.
    destruct Hrun as [Hrun|(q & g' & _ & Hrun)]; eauto.
Qed.

Lemma randomPoint_raises fuel point startPositions g e :
  randomPoint fuel point startPositions g = Raise e -> e = RecursionError.
Proof.
  revert g e. induction fuel as [|fuel IH]; intros g e; simpl.
  - unfold raise. congruence.
  - destruct (uniform_Ok (pt_x point - 5) (pt_x point + 5) g)
      as (x & g1 & Hx).
    rewrite (bind_Ok _ _ _ Hx).
    destruct (uniform_Ok (pt_y point - 5) (pt_y point + 5) g1)
      as (y & g2 & Hy).
    rewrite (bind_Ok _ _ _ Hy).
    apply scanPositions_raises. intros g0 e0. apply IH.
Qed.

(** The candidate drawn first is the point [randomPoint] returns,
    whatever the positions already taken. *)
Lemma scanPositions_returns (retry : M G Point) (p : Point) pts g q g' :
  scanPositions retry p pts g = Ok (q, g') -> q = p.
Proof.
  revert g. induction pts as [|a rest IH]; intros g; simpl.
  - unfold ret. congruence.
  - destruct (distance p a <? 0.3).
    + intros Hrun. apply bind_inv_Ok in Hrun.
      destruct Hrun as (r & g1 & _ & Hrun). eauto.
    + unfold ret. congruence.
Qed.

(** X20: [randomPoint] returns the point of its first two draws, however
    close to the start positions it is: the point a recursive call draws
    is never the result. *)
Lemma randomPoint_first_candidate fuel point startPositions g p g' :
  randomPoint fuel point startPositions g = Ok (p, g') ->
  let (u, g1) := random g in
  let (v, _) := random g1 in
  p = mkPoint (pt_x point - 5 + (pt_x point + 5 - (pt_x point - 5)) * u)
              (pt_y point - 5 + (pt_y point + 5 - (pt_y point - 5)) * v).
Proof.
  destruct fuel as [|fuel]; simpl; [discriminate|].
  unfold uniform, draw_random. unfold bind at 1 2. unfold ret at 1.
  destruct (random g) as [u g1]. unfold bind at 1 2. unfold ret at 1.
  destruct (random g1) as [v g2]. apply scanPositions_returns.
Qed.

Lemma placeAt_length fuel gateways startPositions g sp' g' :
  placeAt fuel gateways startPositions g = Ok (sp', g') ->
  List.length sp' = S (List.length startPositions).
Proof.
  unfold placeAt. intros Hrun.
  apply bind_inv_Ok in Hrun. destruct Hrun as (pPos & g1 & _ & Hrun).
  apply bind_inv_Ok in Hrun. destruct Hrun as (gw & g2 & _ & Hrun).
  apply bind_inv_Ok in Hrun. destruct Hrun as (p & g3 & _ & Hrun).
  unfold ret in Hrun. injection Hrun as <- _.
  rewrite length_app. simpl. lia.
Qed.

(** A run of the placement loop that returns has added one start
    position per pedestrian. *)
Lemma placeAll_length fuel f gateways peds startPositions g sp' g' :
  placeAll fuel f gateways peds startPositions g = Ok (sp', g') ->
  List.length sp' = (List.length startPositions + peds)%nat.
Proof.
  revert startPositions g.
  induction peds as [|peds IH]; intros startPositions g; simpl.
  - unfold ret. intros Hrun. injection Hrun as <- _. lia.
  - intros Hrun. apply bind_inv_Ok in Hrun.
    destruct Hrun as (sp1 & g1 & Hone & Hrest).
    unfold placePedestrian in Hone. apply bind_inv_Ok in Hone.
    destruct Hone as (x & g0 & _ & Hone).
    apply placeAt_length in Hone. apply IH in Hrest. lia.
Qed.

Lemma placeAt_empty fuel startPositions g :
  randint_contract G ->
  placeAt fuel [] startPositions g = Raise ValueError.
Proof.
  intros [Hempty _]. unfold placeAt.
  apply bind_Raise. apply Hempty. simpl. lia.
Qed.

Lemma placeAt_no_IndexError fuel gateways startPositions g :
  randint_contract G ->
  placeAt fuel gateways startPositions g <> Raise IndexError.
Proof.
  intros Hrand. destruct gateways as [|gw rest].
  - rewrite placeAt_empty by assumption. discriminate.
  - destruct Hrand as [_ Hrange]. unfold placeAt.
    destruct (Hrange 0%Z (Z.of_nat (List.length (gw :: rest)) - 1)%Z g)
      as (k & g1 & Hk & Hbounds); [simpl List.length; lia|].
    rewrite (bind_Ok _ _ _ Hk).
    destruct (@py_index_in_range _ (gw :: rest) k Hbounds) as (a & Ha & _).
    unfold lift at 1. rewrite Ha. unfold bind at 1.
    intros Hrun. apply bind_inv_Raise in Hrun.
    destruct Hrun as [Hrun|(p & g2 & _ & Hrun)].
    + apply randomPoint_raises in Hrun. discriminate.
    + discriminate.
Qed.

Lemma placePedestrian_draw fuel f gateways startPositions g :
  placePedestrian fuel f gateways startPositions g =
  placeAt fuel (selectGateways (fst (random g)) f gateways) startPositions
    (snd (random g)).
Proof.
  unfold placePedestrian, bind, draw_random.
  destruct (random g); reflexivity.
Qed.

(** C5: when the draw [x] of an iteration selects a mode whose gateway
    list is empty, that iteration raises [ValueError] (out of
    [random.randint(0, -1)], before any indexing), and so does the loop;
    no iteration ever raises [IndexError]. *)
Theorem selected_empty_mode_raises fuel f gateways startPositions g :
  randint_contract G ->
  (selectGateways (fst (random g)) f gateways = [] ->
   placePedestrian fuel f gateways startPositions g = Raise ValueError /\
   forall peds,
     placeAll fuel f gateways (S peds) startPositions g = Raise ValueError) /\
  placePedestrian fuel f gateways startPositions g <> Raise IndexError.
Proof.
  intros Hrand. rewrite placePedestrian_draw. split.
  - intros Hnone. rewrite Hnone. split; [now apply placeAt_empty|].
    intros peds. simpl. apply bind_Raise.
    rewrite placePedestrian_draw, Hnone. now apply placeAt_empty.
  - now apply placeAt_no_IndexError.
Qed.

End CrowdFacts.

Lemma tape_randint_contract : randint_contract Tape.
Proof.
  split; intros a b t Hab; simpl; unfold tape_randint.
  - apply Z.ltb_lt in Hab. now rewrite Hab.
  - replace (b <? a)%Z with false by (symmetry; apply Z.ltb_ge; lia).
    destruct (next t) as [k t']. exists (a + k mod (b - a + 1))%Z, t'.
    split; [reflexivity|].
    pose proof (Z.mod_pos_bound k (b - a + 1)). lia.
Qed.

Lemma selected_empty_mode_raises_witness :
  let '(bahnPeds, busPeds, radPeds, autoPeds) := Scenario.noCars in
  let f := ModalSplit.factoring bahnPeds busPeds radPeds autoPeds in
  placePedestrian 10 f Scenario.noCars [] [Scenario.almostOne]
  = Raise ValueError.
Proof.
  simpl.
  apply (proj1 (selected_empty_mode_raises 10
                  (ModalSplit.factoring [mkPoint 10 10] [mkPoint 20 20]
                     [mkPoint 30 30] [])
                  Scenario.noCars [] [Scenario.almostOne]
                  tape_randint_contract)).
  vm_compute. reflexivity.
Defined.

(** C1 fails on the code: the second pedestrian is placed on the very
    spot of the first. [randomPoint] draws again when the candidate is
    too close, but drops the point drawn by the recursive call and
    returns the first candidate. *)
Lemma defineStartVariables_two_on_one_spot :
  exists out t,
    defineStartVariables 10 Scenario.railOnly 0 0 100 100 2 None
      Scenario.twoOnOneSpot = Ok (out, t) /\
    gencrowd out = [(0%Z, mkPoint 10 10); (1%Z, mkPoint 10 10)] /\
    (distance (mkPoint 10 10) (mkPoint 10 10) <? 0.3)%float = true.
Proof. eexists. eexists. vm_compute. repeat split. Qed.

(** ** The mission table *)

Section MissionFacts.

Context {Geometry : Type} {Shp : Shapely Geometry}.
Context {G : Type} {R : RandomModule G}.
Implicit Types startPositions vals : list Point.

Lemma numbered_values {A : Type} (i : Z) (l : list A) :
  map snd (numbered i l) = l.
Proof.
  revert i. induction l as [|a rest IH]; intros i; simpl;
    [reflexivity | now rewrite IH].
Qed.

(** The steps of a run of [defineStartVariables] that returns. *)
Lemma defineStartVariables_steps fuel (layers : Layers Geometry)
  bbox_minx bbox_miny bbox_maxx bbox_maxy peds target g out g' :
  defineStartVariables fuel layers bbox_minx bbox_miny bbox_maxx bbox_maxy
    peds target g = Ok (out, g') ->
  exists f gateways startPositions g1,
    placeAll fuel f gateways peds [] g = Ok (startPositions, g1) /\
    missionRows target startPositions startPositions g1
    = Ok (pedMission out, g') /\
    gencrowd out = numbered 0 startPositions.
Proof.
  unfold defineStartVariables. intros Hrun.
  apply bind_inv_Ok in Hrun. destruct Hrun as (stations & g0 & Hfind & Hrun).
  assert (g0 = g) as ->.
  { unfold lift in Hfind. destruct (findStations _ _ _ _ _ _ _);
      [injection Hfind as _ Hg; now symmetry | discriminate]. }
  destruct (groupByTransport stations ([], [], [], []))
    as [[[bahnPeds busPeds] radPeds] autoPeds] eqn:Hgroups.
  apply bind_inv_Ok in Hrun. destruct Hrun as (sp & g1 & Hplace & Hrun).
  apply bind_inv_Ok in Hrun. destruct Hrun as (rows & g2 & Hrows & Hrun).
  unfold ret in Hrun. injection Hrun as <- <-. simpl.
  eexists. eexists. exists sp, g1. repeat split; eassumption.
Qed.

Lemma missionRows_target tx ty startPositions vals g :
  missionRows (Some (tx, ty)) startPositions vals g
  = Ok (map (targetRow tx ty) vals, g).
Proof.
  induction vals as [|val rest IH]; simpl; [reflexivity|].
  unfold bind at 1. unfold ret at 1. unfold bind at 1. now rewrite IH.
Qed.

Lemma randomStart_draws startPositions g :
  randint_contract G -> startPositions <> [] ->
  exists a g', drawnFrom startPositions g a g' /\
               randomStart startPositions g = Ok (a, g') /\
               In a startPositions.
Proof.
  intros [_ Hrange] Hsome. unfold randomStart, drawnFrom.
  destruct (Hrange 0%Z (Z.of_nat (List.length startPositions) - 1)%Z g)
    as (i & g' & Hi & Hbounds).
  { destruct startPositions; [now elim Hsome | simpl List.length; lia]. }
  destruct (@py_index_in_range _ startPositions i Hbounds) as (a & Ha & Hnth).
  exists a, g'. split; [|split].
  - now exists i.
  - rewrite (bind_Ok _ _ _ Hi). unfold lift. now rewrite Ha.
  - eapply nth_error_In. exact Hnth.
Qed.

Lemma generatedMission_random startPositions g :
  randint_contract G -> startPositions <> [] ->
  exists a b c d g1 g2 g3 g4,
    drawnFrom startPositions g a g1 /\ drawnFrom startPositions g1 b g2 /\
    drawnFrom startPositions g2 c g3 /\ drawnFrom startPositions g3 d g4 /\
    generatedMission None startPositions g = Ok ([a; b; c; d], g4).
Proof.
  intros Hrand Hsome.
  destruct (randomStart_draws g Hrand Hsome) as (a & g1 & Ha & Hra & _).
  destruct (randomStart_draws g1 Hrand Hsome) as (b & g2 & Hb & Hrb & _).
  destruct (randomStart_draws g2 Hrand Hsome) as (c & g3 & Hc & Hrc & _).
  destruct (randomStart_draws g3 Hrand Hsome) as (d & g4 & Hd & Hrd & _).
  exists a, b, c, d, g1, g2, g3, g4. repeat (split; [assumption|]).
  simpl. rewrite (bind_Ok _ _ _ Hra), (bind_Ok _ _ _ Hrb),
    (bind_Ok _ _ _ Hrc), (bind_Ok _ _ _ Hrd). reflexivity.
Qed.

(** In the random mode every row has four waypoints, all of them start
    positions, and the rows follow the start points. *)
Lemma missionRows_random startPositions vals g :
  randint_contract G -> startPositions <> [] ->
  exists rows g',
    missionRows None startPositions vals g = Ok (rows, g') /\
    map (fun row : Row => fst (fst row)) rows = vals /\
    Forall (fun row : Row => List.length (snd row) = 4%nat /\
                             incl (snd row) startPositions) rows.
Proof.
  intros Hrand Hsome. revert g.
  induction vals as [|val rest IH]; intros g; simpl.
  - exists [], g. repeat split. constructor.
  - destruct (generatedMission_random g Hrand Hsome)
      as (a & b & c & d & g1 & g2 & g3 & g4 & Ha & Hb & Hc & Hd & Hrun).
    destruct (IH g4) as (rows & g' & Hrows & Hvals & Hall).
    eexists. exists g'. split; [|split].
    + rewrite (bind_Ok _ _ _ Hrun), (bind_Ok _ _ _ Hrows). reflexivity.
    + simpl. now rewrite Hvals.
    + constructor; [|assumption]. simpl. split; [reflexivity|].
      destruct Ha as (? & _ & Ha), Hb as (? & _ & Hb),
               Hc as (? & _ & Hc), Hd as (? & _ & Hd).
      apply nth_error_In in Ha, Hb, Hc, Hd.
      intros q [<-|[<-|[<-|[<-|[]]]]]; assumption.
Qed.

(** C7: with a target, the rows are one per start point, each with the
    target as its only waypoint, however many start points there are;
    without a target (and with a start position to draw from), the
    waypoints of a mission are four start positions, each at the index
    of its own [randint(0, len - 1)] draw, the draws following each
    other, so that a position may come up more than once. A run of
    [defineStartVariables] with a target writes [peds] rows, one per
    start point, each with the target alone. *)
Theorem mission_waypoints startPositions :
  (forall tx ty vals g,
      missionRows (Some (tx, ty)) startPositions vals g
      = Ok (map (targetRow tx ty) vals, g)) /\
  (forall fuel (layers : Layers Geometry) bbox_minx bbox_miny bbox_maxx
          bbox_maxy peds tx ty g out g',
      defineStartVariables fuel layers bbox_minx bbox_miny bbox_maxx
        bbox_maxy peds (Some (tx, ty)) g = Ok (out, g') ->
      pedMission out = map (targetRow tx ty) (map snd (gencrowd out)) /\
      List.length (pedMission out) = peds) /\
  (randint_contract G -> startPositions <> [] ->
   (forall g, exists a b c d g1 g2 g3 g4,
       drawnFrom startPositions g a g1 /\ drawnFrom startPositions g1 b g2 /\
       drawnFrom startPositions g2 c g3 /\ drawnFrom startPositions g3 d g4 /\
       generatedMission None startPositions g = Ok ([a; b; c; d], g4)) /\
   (forall vals g, exists rows g',
       missionRows None startPositions vals g = Ok (rows, g') /\
       map (fun row : Row => fst (fst row)) rows = vals /\
       Forall (fun row : Row => List.length (snd row) = 4%nat /\
                                incl (snd row) startPositions) rows)).
Proof.
  split; [|split].
  - intros. apply missionRows_target.
  - intros fuel layers minx' miny' maxx' maxy' peds tx ty g out g' Hrun.
    apply defineStartVariables_steps in Hrun.
    destruct Hrun as (f & gateways & sp & g1 & Hplace & Hrows & Hcrowd).
    rewrite missionRows_target in Hrows. injection Hrows as <- _.
    rewrite Hcrowd, numbered_values. split; [reflexivity|].
    rewrite length_map. now apply placeAll_length in Hplace.
  - intros Hrand Hsome. split.
    + intros g. now apply generatedMission_random.
    + intros vals g. now apply missionRows_random.
Qed.

End MissionFacts.

Lemma mission_waypoints_witness :
  let spot := mkPoint 10 10 in
  let other := mkPoint 20 20 in
  exists g', generatedMission None [spot; other] [1; 0; 1; 1]%Z
             = Ok ([other; spot; other; other], g').
Proof.
  intros spot other. subst spot other.
  destruct (proj1 (proj2 (proj2 (mission_waypoints (Geometry := Rect)
                                   [mkPoint 10 10; mkPoint 20 20]))
                     tape_randint_contract ltac:(discriminate))
              [1; 0; 1; 1]%Z)
    as (a & b & c & d & g1 & g2 & g3 & g4 & Ha & Hb & Hc & Hd & Hrun).
  exists g4.
  destruct Ha as (i & Hi & Ha). vm_compute in Hi.
  injection Hi as <- <-. vm_compute in Ha. injection Ha as <-.
  destruct Hb as (i & Hi & Hb). vm_compute in Hi.
  injection Hi as <- <-. vm_compute in Hb. injection Hb as <-.
  destruct Hc as (i & Hi & Hc). vm_compute in Hi.
  injection Hi as <- <-. vm_compute in Hc. injection Hc as <-.
  destruct Hd as (i & Hi & Hd). vm_compute in Hi.
  injection Hi as <- <-. vm_compute in Hd. injection Hd as <-.
  exact Hrun.
Defined.

(** ** Determinism of a run *)

Section RunFacts.

Context {Geometry : Type} {Shp : Shapely Geometry}.
Context {G : Type} {R : RandomModule G}.

Import ModalSplit.
Local Open Scope float_scope.

Lemma refines_refl {A : Type} (m : M G A) : refines m m.
Proof. intros g r Hrun. exact Hrun. Qed.

Lemma refines_bind {A B : Type} (m m' : M G A) (k k' : A -> M G B) :
  refines m m' -> (forall a, refines (k a) (k' a)) ->
  refines (bind m k) (bind m' k').
Proof.
  intros Hm Hk g [b g''] Hrun. apply bind_inv_Ok in Hrun.
  destruct Hrun as (a & g' & Hma & Hka).
  rewrite (bind_Ok _ _ _ (Hm _ _ Hma)). now apply Hk.
Qed.

Lemma scanPositions_refines (retry retry' : M G Point) p pts :
  refines retry retry' ->
  refines (scanPositions retry p pts) (scanPositions retry' p pts).
Proof.
  intros Hretry. induction pts as [|a rest IH]; simpl.
  - apply refines_refl.
  - destruct (distance p a <? 0.3); [|apply refines_refl].
    apply refines_bind; [assumption | intros _; assumption].
Qed.

(** A deeper call stack does not change what [randomPoint] returns. *)
Lemma randomPoint_deeper fuel fuel' point startPositions :
  (fuel <= fuel')%nat ->
  refines (randomPoint fuel point startPositions)
          (randomPoint fuel' point startPositions).
Proof.
  revert fuel'. induction fuel as [|fuel IH]; intros fuel' Hle.
  - intros g r Hrun. discriminate.
  - destruct fuel' as [|fuel']; [lia|]. simpl.
    apply refines_bind; [apply refines_refl | intros x].
    apply refines_bind; [apply refines_refl | intros y].
    apply scanPositions_refines. apply IH. lia.
Qed.

Lemma placeAll_deeper fuel fuel' f gateways peds startPositions :
  (fuel <= fuel')%nat ->
  refines (placeAll fuel f gateways peds startPositions)
          (placeAll fuel' f gateways peds startPositions).
Proof.
  intros Hle. revert startPositions.
  induction peds as [|peds IH]; intros startPositions; simpl.
  - apply refines_refl.
  - apply refines_bind; [|intros sp; apply IH].
    unfold placePedestrian, placeAt.
    apply refines_bind; [apply refines_refl | intros x].
    apply refines_bind; [apply refines_refl | intros pPos].
    apply refines_bind; [apply refines_refl | intros gateway].
    apply refines_bind; [|intros p; apply refines_refl].
    now apply randomPoint_deeper.
Qed.

Lemma findStations_deeper fuel fuel' bahnStations busStations radStations
  parkStations bbox (boundariesInBBox : list (Feature Geometry)) l :
  (fuel <= fuel')%nat ->
  findStations fuel bahnStations busStations radStations parkStations bbox
    boundariesInBBox = Ok l ->
  findStations fuel' bahnStations busStations radStations parkStations bbox
    boundariesInBBox = Ok l.
Proof.
  intros Hle Hrun. apply findStations_returns in Hrun.
  destruct Hrun as (k & Hk & -> & Hlen & Hbefore).
  apply findStations_terminates; [assumption | assumption | lia].
Qed.

Lemma defineStartVariables_deeper fuel fuel' (layers : Layers Geometry)
  bbox_minx bbox_miny bbox_maxx bbox_maxy peds target :
  (fuel <= fuel')%nat ->
  refines (defineStartVariables fuel layers bbox_minx bbox_miny bbox_maxx
             bbox_maxy peds target)
          (defineStartVariables fuel' layers bbox_minx bbox_miny bbox_maxx
             bbox_maxy peds target).
Proof.
  intros Hle. unfold defineStartVariables. apply refines_bind.
  - intros g [l g'] Hrun. unfold lift in *.
    destruct (findStations fuel _ _ _ _ _ _) as [l0|e] eqn:Hfind;
      [|discriminate].
    now rewrite (findStations_deeper _ _ _ _ _ _ Hle Hfind).
  - intros stations.
    destruct (groupByTransport stations ([], [], [], []))
      as [[[bahnPeds busPeds] radPeds] autoPeds].
    apply refines_bind; [now apply placeAll_deeper|].
    intros sp. apply refines_refl.
Qed.

(** C9: two runs of [defineStartVariables] from the same generator
    state, on the same layers, box, number of pedestrians and target,
    return the same start points and the same mission table (and leave
    the generator in the same state); the call depth available to each
    run plays no part. *)
Theorem defineStartVariables_deterministic fuel1 fuel2
  (layers : Layers Geometry) bbox_minx bbox_miny bbox_maxx bbox_maxy peds
  target g out1 g1 out2 g2 :
  defineStartVariables fuel1 layers bbox_minx bbox_miny bbox_maxx bbox_maxy
    peds target g = Ok (out1, g1) ->
  defineStartVariables fuel2 layers bbox_minx bbox_miny bbox_maxx bbox_maxy
    peds target g = Ok (out2, g2) ->
  gencrowd out1 = gencrowd out2 /\ pedMission out1 = pedMission out2 /\
  out1 = out2 /\ g1 = g2.
Proof.
  intros Hrun1 Hrun2.
  apply (defineStartVariables_deeper (fuel' := Nat.max fuel1 fuel2)) in Hrun1;
    [|lia].
  apply (defineStartVariables_deeper (fuel' := Nat.max fuel1 fuel2)) in Hrun2;
    [|lia].
  rewrite Hrun1 in Hrun2. injection Hrun2 as <- <-. repeat split.
Qed.

End RunFacts.

Lemma defineStartVariables_deterministic_witness :
  exists out1 out2,
    defineStartVariables 10 Scenario.railOnly 0 0 100 100 2 None
      Scenario.twoOnOneSpot = Ok (out1, []) /\
    defineStartVariables 1000 Scenario.railOnly 0 0 100 100 2 None
      Scenario.twoOnOneSpot = Ok (out2, []) /\
    gencrowd out1 = gencrowd out2 /\ pedMission out1 = pedMission out2.
Proof.
  eexists. eexists.
  split; [vm_compute; reflexivity|].
  split; [vm_compute; reflexivity|].
  match goal with
  | |- gencrowd ?o1 = gencrowd ?o2 /\ _ =>
      destruct (@defineStartVariables_deterministic _ _ _ _ 10 1000
                  Scenario.railOnly 0 0 100 100 2 None Scenario.twoOnOneSpot
                  o1 [] o2 []) as (Hcrowd & Hrows & _);
      [vm_compute; reflexivity | vm_compute; reflexivity
      | exact (conj Hcrowd Hrows)]
  end.
Defined.

(** * Further properties of the code *)

(** ** The loops of [findStations] *)

Section LocatorLoops.

Context {Geometry : Type} {Shp : Shapely Geometry}.
Implicit Types stations : list Station.
Implicit Types boundariesInBBox : list (Feature Geometry).

Lemma Subsequence_nil {A : Type} (l : list A) : Subsequence [] l.
Proof. induction l; constructor; assumption. Qed.

Lemma Subsequence_trans {A : Type} (l1 l2 l3 : list A) :
  Subsequence l1 l2 -> Subsequence l2 l3 -> Subsequence l1 l3.
Proof.
  intros H12 H23. revert l1 H12.
  induction H23 as [|a l2 l3 H23 IH|a l2 l3 H23 IH]; intros l1 H12.
  - exact H12.
  - constructor. now apply IH.
  - inversion H12; subst.
    + apply sub_skip. now apply IH.
    + apply sub_keep. now apply IH.
Qed.

Lemma Subsequence_In {A : Type} (l l' : list A) (a : A) :
  Subsequence l l' -> In a l -> In a l'.
Proof.
  induction 1 as [|b l l' Hsub IH|b l l' Hsub IH]; simpl; intros Hin.
  - exact Hin.
  - right. now apply IH.
  - destruct Hin as [->|Hin]; [now left | right; now apply IH].
Qed.

Lemma Subsequence_length {A : Type} (l l' : list A) :
  Subsequence l l' -> (List.length l <= List.length l')%nat.
Proof. induction 1; simpl; lia. Qed.

Lemma collect_app (features : list (Feature Point)) (tag : string)
  (bbox : Geometry) stations :
  collect features tag bbox stations
  = stations ++ tagged tag (filter (inBox bbox) features).
Proof.
  revert stations. induction features as [|feature rest IH];
    intros stations; simpl.
  - now rewrite app_nil_r.
  - unfold inBox at 1. destruct (intersects _ _); rewrite IH.
    + now rewrite <- app_assoc.
    + reflexivity.
Qed.

Lemma collectAll_tagged (bahnStations busStations radStations parkStations
  : list (Feature Point)) (bbox : Geometry) :
  collectAll bahnStations busStations radStations parkStations bbox
  = tagged "Bahn" (filter (inBox bbox) bahnStations) ++
    tagged "Bus" (filter (inBox bbox) busStations) ++
    tagged "Rad" (filter (inBox bbox) radStations) ++
    tagged "Auto" (filter (inBox bbox) parkStations).
Proof.
  unfold collectAll. rewrite !collect_app. simpl.
  now rewrite <- !app_assoc.
Qed.

Lemma In_tagged (tag : string) (features : list (Feature Point))
  (station : Station) :
  In station (tagged tag features) <->
  snd station = tag /\ In (fst station) features.
Proof.
  unfold tagged. rewrite in_map_iff. destruct station as [feature t].
  simpl. split.
  - intros (f & Heq & Hin). injection Heq as -> ->. now split.
  - intros [-> Hin]. now exists feature.
Qed.

(** X1: the four collecting loops give the rail stations in the box,
    then the bus, bike and car stations in the box, each layer in its own
    order and under its own tag; a feature is collected under a tag
    exactly when it is in the layer of that tag and intersects the box. *)
Theorem collectAll_layers (bahnStations busStations radStations parkStations
  : list (Feature Point)) (bbox : Geometry) :
  collectAll bahnStations busStations radStations parkStations bbox
  = tagged "Bahn" (filter (inBox bbox) bahnStations) ++
    tagged "Bus" (filter (inBox bbox) busStations) ++
    tagged "Rad" (filter (inBox bbox) radStations) ++
    tagged "Auto" (filter (inBox bbox) parkStations) /\
  forall feature tag,
    In (feature, tag)
       (collectAll bahnStations busStations radStations parkStations bbox)
    <->
    inBox bbox feature = true /\
    ((tag = "Bahn"%string /\ In feature bahnStations) \/
     (tag = "Bus"%string /\ In feature busStations) \/
     (tag = "Rad"%string /\ In feature radStations) \/
     (tag = "Auto"%string /\ In feature parkStations)).
Proof.
  split; [apply collectAll_tagged|].
  intros feature tag. rewrite collectAll_tagged.
  rewrite !in_app_iff, !In_tagged, !filter_In. simpl. tauto.
Qed.

Lemma remove_first_Subsequence (station : Station) stations :
  Subsequence (remove_first station stations) stations.
Proof.
  induction stations as [|s rest IH]; simpl; [constructor|].
  destruct (station_eqb s station).
  - apply sub_skip. apply Subsequence_refl.
  - apply sub_keep. exact IH.
Qed.

Lemma scanStations_Subsequence steps (gebaeude : Feature Geometry) i
  stations :
  Subsequence (scanStations steps gebaeude i stations) stations.
Proof.
  revert i stations. induction steps as [|steps IH]; intros i stations;
    simpl; [apply Subsequence_refl|].
  destruct (nth_error stations i) as [station|]; [|apply Subsequence_refl].
  destruct (intersects _ _); [|apply IH].
  eapply Subsequence_trans; [apply IH | apply remove_first_Subsequence].
Qed.

Lemma excludeBuildings_Subsequence boundariesInBBox stations :
  Subsequence (excludeBuildings boundariesInBBox stations) stations.
Proof.
  unfold excludeBuildings. revert stations.
  induction boundariesInBBox as [|gebaeude rest IH]; intros stations; simpl.
  - apply Subsequence_refl.
  - eapply Subsequence_trans; [apply IH|].
    apply scanStations_Subsequence.
Qed.

(** X2: the removal loops only take stations away: what is left is a
    subsequence of the collected stations (same stations, same order),
    so it is no longer and holds nothing that was not collected. *)
Theorem excludeBuildings_only_removes boundariesInBBox stations :
  Subsequence (excludeBuildings boundariesInBBox stations) stations /\
  (List.length (excludeBuildings boundariesInBBox stations)
   <= List.length stations)%nat /\
  (forall station, In station (excludeBuildings boundariesInBBox stations) ->
                   In station stations).
Proof.
  pose proof (excludeBuildings_Subsequence boundariesInBBox stations) as Hsub.
  split; [exact Hsub | split].
  - now apply Subsequence_length.
  - intros station. now apply Subsequence_In.
Qed.

Lemma scanStations_clear steps (gebaeude : Feature Geometry) i stations :
  (forall station, In station stations -> hits gebaeude station = false) ->
  scanStations steps gebaeude i stations = stations.
Proof.
  intros Hclear. revert i. induction steps as [|steps IH]; intros i; simpl;
    [reflexivity|].
  destruct (nth_error stations i) as [station|] eqn:Hnth; [|reflexivity].
  apply nth_error_In in Hnth. apply Hclear in Hnth. unfold hits in Hnth.
  rewrite Hnth. apply IH.
Qed.

(** X3: when no collected station intersects any of the buildings, the
    removal loops leave the list as it is. *)
Theorem excludeBuildings_clear boundariesInBBox stations :
  (forall gebaeude station,
      In gebaeude boundariesInBBox -> In station stations ->
      hits gebaeude station = false) ->
  excludeBuildings boundariesInBBox stations = stations.
Proof.
  unfold excludeBuildings.
  induction boundariesInBBox as [|gebaeude rest IH]; intros Hclear; simpl;
    [reflexivity|].
  unfold removeInside. rewrite scanStations_clear.
  - apply IH. intros g station Hg. apply Hclear. now right.
  - intros station. apply Hclear. now left.
Qed.

End LocatorLoops.

Lemma excludeBuildings_clear_witness :
  excludeBuildings [Scenario.hall]
    (tagged "Bahn" [Scenario.station 2 50 50; Scenario.station 3 60 60])
  = tagged "Bahn" [Scenario.station 2 50 50; Scenario.station 3 60 60].
Proof.
  apply excludeBuildings_clear.
  intros gebaeude station [<-|[]] [<-|[<-|[]]]; reflexivity.
Defined.

(** ** What [findStations] returns and when it does not *)

Section LocatorResults.

Context {Geometry : Type} {Shp : Shapely Geometry}.

Variables bahnStations busStations radStations parkStations
  : list (Feature Point).
Variable boundariesInBBox : list (Feature Geometry).

(** Where a station of [stationsOf] comes from. *)
Lemma stationsOf_origin (bbox : Geometry) (station : Station) :
  In station (stationsOf bahnStations busStations radStations parkStations
                bbox boundariesInBBox) ->
  inBox bbox (fst station) = true /\
  ((snd station = "Bahn"%string /\ In (fst station) bahnStations) \/
   (snd station = "Bus"%string /\ In (fst station) busStations) \/
   (snd station = "Rad"%string /\ In (fst station) radStations) \/
   (snd station = "Auto"%string /\ In (fst station) parkStations)).
Proof.
  unfold stationsOf. intros Hin.
  apply (@Subsequence_In _ _ _ station (excludeBuildings_Subsequence _ _))
    in Hin.
  rewrite collectAll_tagged in Hin.
  rewrite !in_app_iff, !In_tagged, !filter_In in Hin. tauto.
Qed.

(** X4: every gateway [findStations] returns is a feature of the layer
    its tag names and intersects the box of the call that found the
    list, the initial box expanded [k] times. *)
Theorem findStations_gateways_located fuel (bbox : Geometry)
  (stations : list Station) :
  findStations fuel bahnStations busStations radStations parkStations bbox
    boundariesInBBox = Ok stations ->
  exists k, (k < fuel)%nat /\
    forall station, In station stations ->
      inBox (expanded k bbox) (fst station) = true /\
      ((snd station = "Bahn"%string /\ In (fst station) bahnStations) \/
       (snd station = "Bus"%string /\ In (fst station) busStations) \/
       (snd station = "Rad"%string /\ In (fst station) radStations) \/
       (snd station = "Auto"%string /\ In (fst station) parkStations)).
Proof.
  intros Hrun. apply findStations_returns in Hrun.
  destruct Hrun as (k & Hk & -> & _ & _). exists k. split; [exact Hk|].
  intros station. apply stationsOf_origin.
Qed.

Lemma stationsOf_length (bbox : Geometry) :
  (List.length (stationsOf bahnStations busStations radStations parkStations
                  bbox boundariesInBBox)
   <= List.length bahnStations + List.length busStations +
      List.length radStations + List.length parkStations)%nat.
Proof.
  unfold stationsOf.
  pose proof (Subsequence_length
                (excludeBuildings_Subsequence boundariesInBBox
                   (collectAll bahnStations busStations radStations
                      parkStations bbox))) as Hlen.
  rewrite collectAll_tagged in *. unfold tagged in *.
  rewrite !length_app, !length_map in Hlen.
  pose proof (filter_length_le (inBox bbox) bahnStations).
  pose proof (filter_length_le (inBox bbox) busStations).
  pose proof (filter_length_le (inBox bbox) radStations).
  pose proof (filter_length_le (inBox bbox) parkStations).
  lia.
Qed.

Lemma findStations_starved fuel (bbox : Geometry) :
  (List.length bahnStations + List.length busStations +
   List.length radStations + List.length parkStations < 5)%nat ->
  findStations fuel bahnStations busStations radStations parkStations bbox
    boundariesInBBox = Raise RecursionError.
Proof.
  intros Hfew. revert bbox. induction fuel as [|fuel IH]; intros bbox;
    [reflexivity|].
  rewrite findStations_below; [apply IH|].
  pose proof (stationsOf_length bbox). lia.
Qed.

(** The only exception out of [findStations] is the one of the call
    depth. *)
Lemma findStations_raises fuel (bbox : Geometry) e :
  findStations fuel bahnStations busStations radStations parkStations bbox
    boundariesInBBox = Raise e -> e = RecursionError.
Proof.
  revert bbox. induction fuel as [|fuel IH]; intros bbox; simpl.
  - congruence.
  - destruct (_ <? 5)%nat; [apply IH | discriminate].
Qed.

End LocatorResults.

Lemma findStations_gateways_located_witness :
  exists k, (k < 2)%nat /\
    forall station,
      In station (stationsOf Scenario.railSpread [] [] []
                    (expanded 1 Scenario.area) []) ->
      inBox (expanded k Scenario.area) (fst station) = true /\
      ((snd station = "Bahn"%string /\ In (fst station) Scenario.railSpread) \/
       (snd station = "Bus"%string /\ In (fst station) []) \/
       (snd station = "Rad"%string /\ In (fst station) []) \/
       (snd station = "Auto"%string /\ In (fst station) [])).
Proof.
  apply (findStations_gateways_located Scenario.railSpread [] [] [] []
           2 Scenario.area).
  vm_compute. reflexivity.
Defined.


(** ** Grouping the gateways and weighing the modes *)

Section GroupFacts.

Import ModalSplit.
Local Open Scope float_scope.

Lemma groupByTransport_acc (gatewaysList : list Station)
  (bahnPeds busPeds radPeds autoPeds : list Point) :
  groupByTransport gatewaysList (bahnPeds, busPeds, radPeds, autoPeds)
  = (bahnPeds ++ geometriesOf "Bahn" gatewaysList,
     busPeds ++ geometriesOf "Bus" gatewaysList,
     radPeds ++ geometriesOf "Rad" gatewaysList,
     autoPeds ++ geometriesOf "Auto" gatewaysList).
Proof.
  revert bahnPeds busPeds radPeds autoPeds.
  induction gatewaysList as [|[feature tag] rest IH];
    intros bahnPeds busPeds radPeds autoPeds.
  - simpl. now rewrite !app_nil_r.
  - unfold geometriesOf in *. cbn [groupByTransport fst snd filter].
    destruct (String.eqb tag "Bahn") eqn:Ebahn;
      [apply String.eqb_eq in Ebahn; subst tag; simpl; rewrite IH;
       now rewrite <- app_assoc|].
    destruct (String.eqb tag "Bus") eqn:Ebus;
      [apply String.eqb_eq in Ebus; subst tag; simpl; rewrite IH;
       now rewrite <- app_assoc|].
    destruct (String.eqb tag "Rad") eqn:Erad;
      [apply String.eqb_eq in Erad; subst tag; simpl; rewrite IH;
       now rewrite <- app_assoc|].
    destruct (String.eqb tag "Auto") eqn:Eauto;
      [apply String.eqb_eq in Eauto; subst tag; simpl; rewrite IH;
       now rewrite <- app_assoc|].
    apply IH.
Qed.


Lemma geometriesOf_cover (gatewaysList : list Station) :
  (forall station, In station gatewaysList -> transportTag (snd station)) ->
  (List.length (geometriesOf "Bahn" gatewaysList) +
   List.length (geometriesOf "Bus" gatewaysList) +
   List.length (geometriesOf "Rad" gatewaysList) +
   List.length (geometriesOf "Auto" gatewaysList)
   = List.length gatewaysList)%nat.
Proof.
  induction gatewaysList as [|[feature tag] rest IH]; intros Htags;
    [reflexivity|].
  assert (Hrest : forall station, In station rest ->
                                  transportTag (snd station))
    by (intros station Hin; apply Htags; now right).
  specialize (IH Hrest). unfold geometriesOf in *.
  destruct (Htags (feature, tag) (or_introl eq_refl))
    as [Htag|[Htag|[Htag|Htag]]]; simpl in Htag; subst tag; simpl; lia.
Qed.

(** X6: the grouping loop sorts the gateways by their "transport": each
    of the four lists holds the geometries of the gateways with its tag,
    in the order of the gateway layer; and when every gateway carries one
    of the four tags, each gateway is in exactly one list, so the four
    lengths add up to the number of gateways. *)
Theorem groupByTransport_sorts (gatewaysList : list Station) :
  groupByTransport gatewaysList ([], [], [], [])
  = (geometriesOf "Bahn" gatewaysList, geometriesOf "Bus" gatewaysList,
     geometriesOf "Rad" gatewaysList, geometriesOf "Auto" gatewaysList) /\
  ((forall station, In station gatewaysList -> transportTag (snd station)) ->
   forall bahnPeds busPeds radPeds autoPeds,
     groupByTransport gatewaysList ([], [], [], [])
     = (bahnPeds, busPeds, radPeds, autoPeds) ->
     (List.length bahnPeds + List.length busPeds + List.length radPeds +
      List.length autoPeds = List.length gatewaysList)%nat).
Proof.
  split; [now rewrite groupByTransport_acc|].
  intros Htags bahnPeds busPeds radPeds autoPeds Hgroups.
  rewrite groupByTransport_acc in Hgroups. simpl in Hgroups.
  injection Hgroups as <- <- <- <-. now apply geometriesOf_cover.
Qed.

End GroupFacts.

Section GatewayGroups.

Context {Geometry : Type} {Shp : Shapely Geometry}.

Import ModalSplit.

Lemma findStations_groups fuel
  (bahnStations busStations radStations parkStations : list (Feature Point))
  (bbox : Geometry) (boundariesInBBox : list (Feature Geometry))
  (stations : list Station) (bahnPeds busPeds radPeds autoPeds : list Point) :
  findStations fuel bahnStations busStations radStations parkStations bbox
    boundariesInBBox = Ok stations ->
  groupByTransport stations ([], [], [], [])
  = (bahnPeds, busPeds, radPeds, autoPeds) ->
  (List.length bahnPeds + List.length busPeds + List.length radPeds +
   List.length autoPeds = List.length stations)%nat /\
  (5 <= List.length stations)%nat /\
  (bahnPeds <> [] \/ busPeds <> [] \/ radPeds <> [] \/ autoPeds <> []).
Proof.
  intros Hrun Hgroups. rewrite groupByTransport_acc in Hgroups.
  simpl in Hgroups. injection Hgroups as <- <- <- <-.
  apply findStations_returns in Hrun.
  destruct Hrun as (k & _ & Hstations & Hlen & _).
  assert (Hcover : (List.length (geometriesOf "Bahn" stations) +
                    List.length (geometriesOf "Bus" stations) +
                    List.length (geometriesOf "Rad" stations) +
                    List.length (geometriesOf "Auto" stations)
                    = List.length stations)%nat).
  { apply geometriesOf_cover. intros station Hin. rewrite Hstations in Hin.
    apply stationsOf_origin in Hin. unfold transportTag. tauto. }
  assert (Hsome : geometriesOf "Bahn" stations <> [] \/
                  geometriesOf "Bus" stations <> [] \/
                  geometriesOf "Rad" stations <> [] \/
                  geometriesOf "Auto" stations <> []).
  { destruct (geometriesOf "Bahn" stations); [|left; discriminate].
    destruct (geometriesOf "Bus" stations); [|right; left; discriminate].
    destruct (geometriesOf "Rad" stations);
      [|right; right; left; discriminate].
    destruct (geometriesOf "Auto" stations);
      [|right; right; right; discriminate].
    simpl in Hcover. lia. }
  split; [exact Hcover | split; [exact Hlen | exact Hsome]].
Qed.

(** X7: the gateways of a returned [findStations] all fall into one of
    the four groups, so the groups hold at least 5 points together and
    are never all empty; [factoring] is then never called with four
    empty lists, and each mode without a gateway gets the factor 0. *)
Theorem gateway_groups_cover fuel
  (bahnStations busStations radStations parkStations : list (Feature Point))
  (bbox : Geometry) (boundariesInBBox : list (Feature Geometry))
  (stations : list Station) (bahnPeds busPeds radPeds autoPeds : list Point) :
  findStations fuel bahnStations busStations radStations parkStations bbox
    boundariesInBBox = Ok stations ->
  groupByTransport stations ([], [], [], [])
  = (bahnPeds, busPeds, radPeds, autoPeds) ->
  (List.length bahnPeds + List.length busPeds + List.length radPeds +
   List.length autoPeds = List.length stations)%nat /\
  (5 <= List.length stations)%nat /\
  (bahnPeds <> [] \/ busPeds <> [] \/ radPeds <> [] \/ autoPeds <> []) /\
  absent_modes_weigh_nothing bahnPeds busPeds radPeds autoPeds.
Proof.
  intros Hrun Hgroups.
  destruct (@findStations_groups fuel bahnStations busStations radStations
              parkStations bbox boundariesInBBox stations bahnPeds busPeds
              radPeds autoPeds Hrun Hgroups) as (Hcover & Hfive & Hsome).
  split; [exact Hcover | split; [exact Hfive | split; [exact Hsome|]]].
  now apply factoring_absent_zero.
Qed.

End GatewayGroups.

Lemma gateway_groups_cover_witness :
  (5 <= List.length (stationsOf Scenario.railInHall [] [] [] Scenario.area
                       [Scenario.hall]))%nat.
Proof.
  eapply (gateway_groups_cover 1 Scenario.railInHall [] [] []
            Scenario.area [Scenario.hall]);
    vm_compute; reflexivity.
Defined.

(** ** The factors and the draw that selects a mode *)

Section SelectionFacts.

Import ModalSplit.
Local Open Scope float_scope.

Implicit Types bahnPeds busPeds radPeds autoPeds : list Point.

(** Case analysis on the four lists being empty or not. *)
Ltac by_availability bahnPeds busPeds radPeds autoPeds :=
  destruct bahnPeds as [|? ?]; destruct busPeds as [|? ?];
  destruct radPeds as [|? ?]; destruct autoPeds as [|? ?].

(** X8: every factor lies between 0 and 1, and a mode that has a gateway
    gets a factor above 0. *)
Theorem factoring_present_positive bahnPeds busPeds radPeds autoPeds :
  let f := factoring bahnPeds busPeds radPeds autoPeds in
  ((0 <=? bahnFactor f) && (bahnFactor f <=? 1) &&
   (0 <=? busFactor f) && (busFactor f <=? 1) &&
   (0 <=? radFactor f) && (radFactor f <=? 1) &&
   (0 <=? autoFactor f) && (autoFactor f <=? 1) = true) /\
  (bahnPeds <> [] -> (0 <? bahnFactor f) = true) /\
  (busPeds <> [] -> (0 <? busFactor f) = true) /\
  (radPeds <> [] -> (0 <? radFactor f) = true) /\
  (autoPeds <> [] -> (0 <? autoFactor f) = true).
Proof.
  by_availability bahnPeds busPeds radPeds autoPeds;
    (split; [vm_compute; reflexivity|]);
    repeat split; intros Hsome; try (vm_compute; reflexivity);
    now elim Hsome.
Qed.

Lemma selectGateways_available (x : float) (peds : groups) :
  unitDraw x ->
  (let '(bahnPeds, busPeds, radPeds, autoPeds) := peds in
   bahnPeds <> [] \/ busPeds <> [] \/ radPeds <> [] \/ autoPeds <> []) ->
  ~ shortOfOne peds ->
  selectGateways x (factorsOf peds) peds <> [].
Proof.
  destruct peds as [[[bahnPeds busPeds] radPeds] autoPeds].
  unfold shortOfOne, factorsOf.
  intros [Hx0 Hx1] Hsome Hrow.
  by_availability bahnPeds busPeds radPeds autoPeds;
    try (exfalso; apply Hrow; repeat split; discriminate);
    try (exfalso; destruct Hsome as [H|[H|[H|H]]]; now apply H);
    cbv [selectGateways factoring nonempty List.length Nat.ltb Nat.leb
         bahnFactor busFactor radFactor autoFactor fst snd];
    repeat match goal with
           | |- context [PrimFloat.add ?a ?b] =>
               let c := eval vm_compute in (PrimFloat.add a b) in
               change (PrimFloat.add a b) with c
           end;
    rewrite ?Hx0, ?Hx1;
    repeat match goal with
           | |- context [PrimFloat.ltb x ?c] => destruct (PrimFloat.ltb x c)
           end;
    discriminate.
Qed.

(** X9: a draw [x] with [0 <= x < 1] never selects a mode without
    gateways, unless rail, bus and bike have gateways and car has none
    (there the three factors add up to less than 1). *)
Theorem draw_selects_available (x : float)
  bahnPeds busPeds radPeds autoPeds :
  unitDraw x ->
  bahnPeds <> [] \/ busPeds <> [] \/ radPeds <> [] \/ autoPeds <> [] ->
  ~ (bahnPeds <> [] /\ busPeds <> [] /\ radPeds <> [] /\ autoPeds = []) ->
  selectGateways x
    (factoring bahnPeds busPeds radPeds autoPeds)
    (bahnPeds, busPeds, radPeds, autoPeds) <> [].
Proof.
  intros Hx Hsome Hrow.
  now apply (@selectGateways_available x
               (bahnPeds, busPeds, radPeds, autoPeds)).
Qed.

End SelectionFacts.

Lemma factoring_present_positive_witness :
  (0 <? ModalSplit.busFactor
          (ModalSplit.factoring [] [mkPoint 20 20] [] [mkPoint 40 40]))%float
  = true.
Proof.
  apply (proj1 (proj2 (proj2
           (factoring_present_positive [] [mkPoint 20 20] []
              [mkPoint 40 40])))).
  discriminate.
Defined.

Lemma draw_selects_available_witness :
  selectGateways 0.5%float
    (ModalSplit.factoring [] [mkPoint 20 20] [] [mkPoint 40 40])
    ([], [mkPoint 20 20], [], [mkPoint 40 40]) <> [].
Proof.
  apply draw_selects_available.
  - split; reflexivity.
  - right; left; discriminate.
  - intros (Hbahn & _). now apply Hbahn.
Defined.

(** ** [randomPoint] and the placement loop *)

Section PlacementFacts.

Context {G : Type} {R : RandomModule G}.

Import ModalSplit.
Local Open Scope float_scope.

Lemma randomPoint_draws fuel point startPositions g u g1 v g2 :
  random g = (u, g1) -> random g1 = (v, g2) ->
  randomPoint (S fuel) point startPositions g
  = scanPositions (randomPoint fuel point startPositions)
      (candidate point u v) startPositions g2.
Proof.
  intros Hu Hv. simpl. unfold uniform, draw_random.
  unfold bind at 1 2. rewrite Hu. unfold ret at 1.
  unfold bind at 1 2. rewrite Hv. reflexivity.
Qed.

(** X11: only the first start position is looked at when it is far
    enough. With no start position yet, or with the candidate at 0.3 or
    more from the first one, [randomPoint] returns the candidate after
    its two draws, without a recursive call and without testing the
    other positions. *)
Theorem randomPoint_checks_first_position fuel point startPositions
  g u g1 v g2 :
  random g = (u, g1) -> random g1 = (v, g2) ->
  (startPositions = [] \/
   exists a rest, startPositions = a :: rest /\
                  (distance (candidate point u v) a <? 0.3) = false) ->
  randomPoint (S fuel) point startPositions g
  = Ok (candidate point u v, g2).
Proof.
  intros Hu Hv Hfirst. rewrite (@randomPoint_draws fuel point startPositions g u g1 v g2 Hu Hv).
  destruct Hfirst as [->|(a & rest & -> & Hfar)]; simpl.
  - reflexivity.
  - now rewrite Hfar.
Qed.

(** X12: [randomPoint] has no bound on its retries of its own. With a
    generator that keeps giving the same draw and a candidate closer than
    0.3 to the first start position, every call makes the same candidate
    and calls again: [RecursionError], whatever the call depth. *)
Theorem randomPoint_same_draw_recurses fuel point a rest g u :
  random g = (u, g) ->
  (distance (candidate point u u) a <? 0.3) = true ->
  randomPoint fuel point (a :: rest) g = Raise RecursionError.
Proof.
  intros Hu Hclose. induction fuel as [|fuel IH]; [reflexivity|].
  rewrite (@randomPoint_draws fuel point (a :: rest) g u g u g Hu Hu).
  simpl. rewrite Hclose.
  now apply bind_Raise.
Qed.

Lemma placeAt_appends fuel gateways startPositions g sp' g' :
  placeAt fuel gateways startPositions g = Ok (sp', g') ->
  exists p, sp' = startPositions ++ [p].
Proof.
  unfold placeAt. intros Hrun.
  apply bind_inv_Ok in Hrun. destruct Hrun as (pPos & g1 & _ & Hrun).
  apply bind_inv_Ok in Hrun. destruct Hrun as (gw & g2 & _ & Hrun).
  apply bind_inv_Ok in Hrun. destruct Hrun as (p & g3 & _ & Hrun).
  unfold ret in Hrun. injection Hrun as <- _. now exists p.
Qed.

(** X13: the placement loop only appends: the start positions it was
    given stay where they are, and one position per pedestrian follows
    them. *)
Theorem placeAll_extends fuel f gateways peds startPositions g sp' g' :
  placeAll fuel f gateways peds startPositions g = Ok (sp', g') ->
  exists added, sp' = startPositions ++ added /\ List.length added = peds.
Proof.
  revert startPositions g.
  induction peds as [|peds IH]; intros startPositions g; simpl.
  - unfold ret. intros Hrun. injection Hrun as <- _.
    exists []. now rewrite app_nil_r.
  - intros Hrun. apply bind_inv_Ok in Hrun.
    destruct Hrun as (sp1 & g1 & Hone & Hrest).
    rewrite placePedestrian_draw in Hone.
    apply placeAt_appends in Hone. destruct Hone as (p & ->).
    apply IH in Hrest. destruct Hrest as (added & -> & Hlen).
    exists (p :: added). rewrite <- app_assoc. simpl. split; [reflexivity|].
    now rewrite Hlen.
Qed.

Lemma placeAt_nonempty_raises fuel gateways startPositions g e :
  randint_contract G -> gateways <> [] ->
  placeAt fuel gateways startPositions g = Raise e -> e = RecursionError.
Proof.
  intros [_ Hrange] Hsome. unfold placeAt.
  destruct (Hrange 0%Z (Z.of_nat (List.length gateways) - 1)%Z g)
    as (k & g1 & Hk & Hbounds).
  { destruct gateways; [now elim Hsome | simpl List.length; lia]. }
  rewrite (bind_Ok _ _ _ Hk).
  destruct (@py_index_in_range _ gateways k Hbounds) as (a & Ha & _).
  unfold lift at 1. rewrite Ha. unfold bind at 1.
  intros Hrun. apply bind_inv_Raise in Hrun.
  destruct Hrun as [Hrun|(p & g2 & _ & Hrun)].
  - now apply randomPoint_raises in Hrun.
  - discriminate.
Qed.

(** X10: an iteration of the placement loop raises [ValueError] exactly
    when its draw selects an empty list of gateways; with a non-empty
    list the only exception left is the [RecursionError] of
    [randomPoint]. *)
Theorem placePedestrian_ValueError fuel f gateways startPositions g :
  randint_contract G ->
  (placePedestrian fuel f gateways startPositions g = Raise ValueError <->
   selectGateways (fst (random g)) f gateways = []) /\
  (selectGateways (fst (random g)) f gateways <> [] ->
   forall e, placePedestrian fuel f gateways startPositions g = Raise e ->
             e = RecursionError).
Proof.
  intros Hrand. rewrite placePedestrian_draw. split; [split|].
  - intros Hrun.
    destruct (selectGateways (fst (random g)) f gateways) as [|gw rest]
      eqn:Hsel; [reflexivity|].
    apply placeAt_nonempty_raises in Hrun;
      [discriminate | assumption | discriminate].
  - intros ->. now apply placeAt_empty.
  - intros Hsome e. now apply placeAt_nonempty_raises.
Qed.

End PlacementFacts.

Lemma randomPoint_checks_first_position_witness :
  randomPoint 1 (mkPoint 10 10) [mkPoint 50 50; mkPoint 10 10]
    [Scenario.half; Scenario.half]
  = Ok (candidate (mkPoint 10 10) 0.5 0.5, []).
Proof.
  apply (@randomPoint_checks_first_position Tape TapeRandom 0
           (mkPoint 10 10) [mkPoint 50 50; mkPoint 10 10]
           [Scenario.half; Scenario.half] 0.5%float [Scenario.half]
           0.5%float []).
  - reflexivity.
  - reflexivity.
  - right. exists (mkPoint 50 50), [mkPoint 10 10]. split; reflexivity.
Defined.

Lemma randomPoint_same_draw_recurses_witness :
  randomPoint 1000 (mkPoint 10 10) [mkPoint 5 5] (@nil Z)
  = Raise RecursionError.
Proof.
  apply (@randomPoint_same_draw_recurses Tape TapeRandom 1000
           (mkPoint 10 10) (mkPoint 5 5) [] [] 0%float);
    reflexivity.
Defined.

Lemma placeAll_extends_witness :
  exists added,
    [mkPoint 50 50; mkPoint 10 10] = [mkPoint 50 50] ++ added /\
    List.length added = 1%nat.
Proof.
  apply (@placeAll_extends Tape TapeRandom 10 (1, 0, 0, 0)%float
           ([mkPoint 10 10], [], [], []) 1 [mkPoint 50 50]
           [Scenario.half; 0%Z; Scenario.half; Scenario.half]
           [mkPoint 50 50; mkPoint 10 10] []).
  vm_compute. reflexivity.
Defined.

Lemma placePedestrian_ValueError_witness :
  placePedestrian 10 (factorsOf Scenario.noCars) Scenario.noCars []
    [Scenario.almostOne] = Raise ValueError.
Proof.
  apply (proj1 (@placePedestrian_ValueError Tape TapeRandom 10
                  (factorsOf Scenario.noCars) Scenario.noCars []
                  [Scenario.almostOne] tape_randint_contract)).
  vm_compute. reflexivity.
Defined.

(** ** What a run writes and how it can fail *)

Section RunOutputs.

Context {Geometry : Type} {Shp : Shapely Geometry}.
Context {G : Type} {R : RandomModule G}.

Import ModalSplit.

Variable layers : Layers Geometry.
Variables bbox_minx bbox_miny bbox_maxx bbox_maxy : float.

#[local] Abbreviation bbox := (box bbox_minx bbox_miny bbox_maxx bbox_maxy).
#[local] Abbreviation clipped := (defineBorders (boundaries layers) bbox).
#[local] Abbreviation located fuel :=
  (findStations fuel (bahn layers) (bus layers) (rad layers) (park layers)
     bbox clipped).
#[local] Abbreviation run fuel peds target :=
  (defineStartVariables fuel layers bbox_minx bbox_miny bbox_maxx bbox_maxy
     peds target).

(** The steps of a run that returns, with everything it wrote. *)
Lemma defineStartVariables_run fuel peds target g out g' :
  run fuel peds target g = Ok (out, g') ->
  exists stations startPositions g1,
    located fuel = Ok stations /\
    placeAll fuel (factorsOf (groupByTransport stations ([], [], [], [])))
      (groupByTransport stations ([], [], [], [])) peds [] g
    = Ok (startPositions, g1) /\
    missionRows target startPositions startPositions g1
    = Ok (pedMission out, g') /\
    boundaries_cut out = numbered 0 (map (@geometry _) clipped) /\
    gateways out = numbered 0 stations /\
    gencrowd out = numbered 0 startPositions.
Proof.
  unfold defineStartVariables. intros Hrun.
  apply bind_inv_Ok in Hrun. destruct Hrun as (stations & g0 & Hfind & Hrun).
  unfold lift in Hfind.
  destruct (findStations _ _ _ _ _ _ _) as [stations'|e] eqn:Hlocated;
    [|discriminate].
  injection Hfind as -> ->.
  unfold factorsOf.
  destruct (groupByTransport stations ([], [], [], []))
    as [[[bahnPeds busPeds] radPeds] autoPeds] eqn:Hgroups.
  apply bind_inv_Ok in Hrun. destruct Hrun as (sp & g1 & Hplace & Hrun).
  apply bind_inv_Ok in Hrun. destruct Hrun as (rows & g2 & Hrows & Hrun).
  unfold ret in Hrun. injection Hrun as <- <-. simpl.
  exists stations, sp, g1. rewrite Hgroups.
  repeat split; try assumption; reflexivity.
Qed.

Lemma numbered_identifiers {A : Type} (l : list A) (i : Z) :
  map fst (numbered i l)
  = map (fun k => (i + Z.of_nat k)%Z) (seq 0 (List.length l)).
Proof.
  revert i. induction l as [|a rest IH]; intros i; simpl; [reflexivity|].
  rewrite Z.add_0_r. f_equal. rewrite IH, <- seq_shift, map_map.
  apply map_ext. intros k. lia.
Qed.

Lemma numbered_from_zero {A : Type} (l : list A) :
  map fst (numbered 0 l) = identifiers (List.length l) /\
  map snd (numbered 0 l) = l /\
  List.length (numbered 0 l) = List.length l.
Proof.
  split; [|split].
  - rewrite numbered_identifiers. unfold identifiers.
    apply map_ext. intros k. lia.
  - apply numbered_values.
  - rewrite <- (length_map snd). now rewrite numbered_values.
Qed.

(** X14: a run that returns has written the buildings [defineBorders]
    kept, at least 5 gateways and exactly [peds] start points, each
    layer numbered 0, 1, 2, ... in the order of its list. *)
Theorem run_numbers_layers fuel peds target g out g' :
  run fuel peds target g = Ok (out, g') ->
  (map fst (boundaries_cut out) = identifiers (List.length clipped) /\
   map snd (boundaries_cut out) = map (@geometry _) clipped) /\
  (map fst (gateways out) = identifiers (List.length (gateways out)) /\
   located fuel = Ok (map snd (gateways out)) /\
   (5 <= List.length (gateways out))%nat) /\
  (map fst (gencrowd out) = identifiers peds /\
   List.length (gencrowd out) = peds).
Proof.
  intros Hrun. apply defineStartVariables_run in Hrun.
  destruct Hrun as (stations & sp & g1 & Hfind & Hplace & _ & -> & -> & ->).
  apply placeAll_length in Hplace. simpl in Hplace.
  destruct (numbered_from_zero (map (@geometry _) clipped))
    as (Hids & Hvals & Hlen).
  destruct (numbered_from_zero stations) as (Hids' & Hvals' & Hlen').
  destruct (numbered_from_zero sp) as (Hids'' & Hvals'' & Hlen'').
  split; [|split].
  - rewrite Hids, Hvals, length_map. split; reflexivity.
  - rewrite Hids', Hvals', Hlen'. repeat split; try assumption.
    apply findStations_returns in Hfind.
    destruct Hfind as (k & _ & _ & Hfive & _). exact Hfive.
  - rewrite Hids'', Hlen'', Hplace. split; reflexivity.
Qed.

Lemma missionRows_shape target startPositions vals g rows g' :
  missionRows target startPositions vals g = Ok (rows, g') ->
  map (fun row : Row => fst (fst row)) rows = vals /\
  Forall (fun row : Row =>
            snd (fst row) = "FollowWayPointsMentalModel"%string) rows.
Proof.
  revert g rows g'. induction vals as [|val rest IH]; intros g rows g';
    simpl.
  - unfold ret. intros Hrun. injection Hrun as <- _. split; constructor.
  - intros Hrun. apply bind_inv_Ok in Hrun.
    destruct Hrun as (mission & g1 & _ & Hrun).
    apply bind_inv_Ok in Hrun. destruct Hrun as (rows' & g2 & Hrest & Hrun).
    unfold ret in Hrun. injection Hrun as <- _.
    apply IH in Hrest. destruct Hrest as [Hvals Hall]. simpl. split.
    + now rewrite Hvals.
    + constructor; [reflexivity | assumption].
Qed.

(** X15: with or without a target, the mission table of a run that
    returns has one row per start point, in the order of the start
    points, each row starting at its start point and carrying the mental
    model "FollowWayPointsMentalModel". *)
Theorem run_missions_follow_start_points fuel peds target g out g' :
  run fuel peds target g = Ok (out, g') ->
  map (fun row : Row => fst (fst row)) (pedMission out)
  = map snd (gencrowd out) /\
  List.length (pedMission out) = peds /\
  Forall (fun row : Row =>
            snd (fst row) = "FollowWayPointsMentalModel"%string)
    (pedMission out).
Proof.
  intros Hrun. apply defineStartVariables_run in Hrun.
  destruct Hrun as (stations & sp & g1 & _ & Hplace & Hrows & _ & _ & ->).
  apply placeAll_length in Hplace. simpl in Hplace.
  apply missionRows_shape in Hrows. destruct Hrows as [Hvals Hall].
  rewrite numbered_values. split; [exact Hvals | split; [|exact Hall]].
  rewrite <- (length_map (fun row : Row => fst (fst row))), Hvals.
  exact Hplace.
Qed.

End RunOutputs.

Section RunFailures.

Context {Geometry : Type} {Shp : Shapely Geometry}.
Context {G : Type} {R : RandomModule G}.

Variable layers : Layers Geometry.
Variables bbox_minx bbox_miny bbox_maxx bbox_maxy : float.

#[local] Abbreviation area :=
  (box bbox_minx bbox_miny bbox_maxx bbox_maxy).
#[local] Abbreviation gatewaysAt fuel :=
  (findStations fuel (bahn layers) (bus layers) (rad layers) (park layers)
     area (defineBorders (boundaries layers) area)).
#[local] Abbreviation runAt fuel peds target :=
  (defineStartVariables fuel layers bbox_minx bbox_miny bbox_maxx bbox_maxy
     peds target).

(** X5: on layers with fewer than 5 stations in all, no box is large
    enough: [findStations] expands until the call depth is used up, and
    it and the run raise [RecursionError], whatever the depth, the
    number of pedestrians and the target. *)
Theorem run_needs_five_stations fuel peds target g :
  (List.length (bahn layers) + List.length (bus layers) +
   List.length (rad layers) + List.length (park layers) < 5)%nat ->
  gatewaysAt fuel = Raise RecursionError /\
  runAt fuel peds target g = Raise RecursionError.
Proof.
  intros Hfew.
  assert (Hfind : gatewaysAt fuel = Raise RecursionError)
    by now apply findStations_starved.
  split; [exact Hfind|].
  unfold defineStartVariables. apply bind_Raise. unfold lift.
  now rewrite Hfind.
Qed.

Lemma shortOfOne_dec (peds : groups) : shortOfOne peds \/ ~ shortOfOne peds.
Proof.
  destruct peds as [[[bahnPeds busPeds] radPeds] autoPeds]. simpl.
  destruct bahnPeds; [right; intros (H & _); now apply H|].
  destruct busPeds; [right; intros (_ & H & _); now apply H|].
  destruct radPeds; [right; intros (_ & _ & H & _); now apply H|].
  destruct autoPeds; [left; repeat split; discriminate|].
  right. intros (_ & _ & _ & H). discriminate.
Qed.

Lemma placeAll_raises fuel (gateways : groups) peds startPositions g e :
  randint_contract G -> random_contract G ->
  (let '(bahnPeds, busPeds, radPeds, autoPeds) := gateways in
   bahnPeds <> [] \/ busPeds <> [] \/ radPeds <> [] \/ autoPeds <> []) ->
  placeAll fuel (factorsOf gateways) gateways peds startPositions g
  = Raise e ->
  e = RecursionError \/ (e = ValueError /\ shortOfOne gateways).
Proof.
  intros Hint Hunit Hsome. revert startPositions g.
  induction peds as [|peds IH]; intros startPositions g; simpl;
    [discriminate|].
  intros Hrun. apply bind_inv_Raise in Hrun.
  destruct Hrun as [Hone|(sp & g1 & _ & Hrest)]; [|now apply IH in Hrest].
  rewrite placePedestrian_draw in Hone.
  destruct (selectGateways (fst (random g)) (factorsOf gateways) gateways)
    as [|gateway rest] eqn:Hsel.
  - rewrite placeAt_empty in Hone by assumption. injection Hone as <-.
    destruct (shortOfOne_dec gateways) as [Hshort|Hlong];
      [right; now split|].
    exfalso.
    now apply (@selectGateways_available _ gateways (Hunit g) Hsome Hlong).
  - left. apply placeAt_nonempty_raises in Hone;
      [assumption | assumption | discriminate].
Qed.

Lemma missionRows_returns target (startPositions : list Point) g e :
  randint_contract G ->
  missionRows target startPositions startPositions g <> Raise e.
Proof.
  intros Hint. destruct target as [[tx ty]|].
  - rewrite missionRows_target. discriminate.
  - destruct startPositions as [|p rest]; [discriminate|].
    destruct (@missionRows_random G R (p :: rest) (p :: rest) g Hint)
      as (rows & g' & Hrows & _); [discriminate|].
    rewrite Hrows. discriminate.
Qed.

(** X16: with [randint] and [random] as documented, a run can fail in
    two ways only: by [RecursionError] (the expansion of the box or the
    retries of [randomPoint]), or by [ValueError], and this only when
    the gateways found hold rail, bus and bike stations and no car park.
    It never raises [IndexError]. *)
Theorem run_failures fuel peds target g e :
  randint_contract G -> random_contract G ->
  runAt fuel peds target g = Raise e ->
  e = RecursionError \/
  (e = ValueError /\
   exists stations,
     gatewaysAt fuel = Ok stations /\
     shortOfOne (groupByTransport stations ([], [], [], []))).
Proof.
  intros Hint Hunit. unfold defineStartVariables. intros Hrun.
  apply bind_inv_Raise in Hrun.
  destruct Hrun as [Hfind|(stations & g0 & Hfind & Hrun)].
  - left. unfold lift in Hfind.
    destruct (gatewaysAt fuel) as [l|e'] eqn:Hlocated; [discriminate|].
    injection Hfind as <-. now apply findStations_raises in Hlocated.
  - unfold lift in Hfind.
    destruct (gatewaysAt fuel) as [l|e'] eqn:Hlocated; [|discriminate].
    injection Hfind as -> ->.
    destruct (groupByTransport stations ([], [], [], []))
      as [[[bahnPeds busPeds] radPeds] autoPeds] eqn:Hgroups.
    destruct (@findStations_groups _ _ _ _ _ _ _ _ _ _ _ _ _ _
                Hlocated Hgroups) as (_ & _ & Hsome).
    apply bind_inv_Raise in Hrun.
    destruct Hrun as [Hplace|(sp & g1 & _ & Hrun)].
    + apply (@placeAll_raises fuel (bahnPeds, busPeds, radPeds, autoPeds))
        in Hplace; try assumption.
      destruct Hplace as [->|[-> Hshort]]; [now left | right].
      split; [reflexivity|]. exists stations. now rewrite Hgroups.
    + apply bind_inv_Raise in Hrun.
      destruct Hrun as [Hrows|(rows & g2 & _ & Hrun)];
        [now apply missionRows_returns in Hrows | discriminate].
Qed.

End RunFailures.

Lemma script_randint_contract : randint_contract Script.
Proof.
  split; intros a b s Hab; simpl; unfold script_randint.
  - apply Z.ltb_lt in Hab. now rewrite Hab.
  - replace (b <? a)%Z with false by (symmetry; apply Z.ltb_ge; lia).
    destruct (snd s) as [|k ks].
    + exists a, s. split; [reflexivity | lia].
    + exists (a + k mod (b - a + 1))%Z, (fst s, ks).
      split; [reflexivity|].
      pose proof (Z.mod_pos_bound k (b - a + 1)). lia.
Qed.

Lemma script_random_contract : random_contract Script.
Proof.
  intros [floats ints]. simpl. unfold script_random. simpl.
  destruct floats as [|x xs]; simpl; [split; reflexivity|].
  destruct (x <? 0)%float eqn:Hneg; [split; reflexivity|].
  destruct (x <? 1)%float eqn:Hone; split; try reflexivity; assumption.
Qed.

Lemma run_needs_five_stations_witness :
  defineStartVariables 1000
    (mkLayers [Scenario.hall]
       [Scenario.station 0 10 10; Scenario.station 1 20 20] []
       [Scenario.station 0 30 30] [])
    0 0 100 100 30 None Scenario.twoOnOneSpot
  = Raise RecursionError.
Proof.
  apply run_needs_five_stations. simpl. lia.
Defined.

Lemma run_failures_witness :
  ValueError = RecursionError \/
  (ValueError = ValueError /\
   exists stations,
     findStations 10 (bahn Cases.threeModes) (bus Cases.threeModes)
       (rad Cases.threeModes) (park Cases.threeModes) (box 0 0 100 100)
       (defineBorders (boundaries Cases.threeModes) (box 0 0 100 100))
     = Ok stations /\
     shortOfOne (groupByTransport stations ([], [], [], []))).
Proof.
  apply (@run_failures Rect RectShapely Script ScriptRandom
           Cases.threeModes 0 0 100 100 10 1 None Cases.lastDraw ValueError
           script_randint_contract script_random_contract).
  vm_compute. reflexivity.
Defined.

Lemma run_numbers_layers_witness :
  exists out,
    defineStartVariables 10 Scenario.railOnly 0 0 100 100 2 None
      Scenario.twoOnOneSpot = Ok (out, []) /\
    map fst (gencrowd out) = identifiers 2 /\
    map fst (gateways out) = identifiers 5.
Proof.
  eexists. split; [vm_compute; reflexivity|].
  match goal with
  | |- map fst (gencrowd ?out) = _ /\ _ =>
      destruct (@run_numbers_layers Rect RectShapely Tape TapeRandom
                  Scenario.railOnly 0 0 100 100 10 2 None
                  Scenario.twoOnOneSpot out [])
        as (_ & (Hgateways & _) & (Hcrowd & _));
      [vm_compute; reflexivity | split; [exact Hcrowd | exact Hgateways]]
  end.
Defined.

Lemma run_missions_follow_start_points_witness :
  exists out,
    defineStartVariables 10 Cases.threeModes 0 0 100 100 1 None
      Cases.oneAtRail = Ok (out, ([], [])) /\
    map (fun row : Row => fst (fst row)) (pedMission out)
    = map snd (gencrowd out).
Proof.
  eexists. split; [vm_compute; reflexivity|].
  match goal with
  | |- map _ (pedMission ?out) = _ =>
      destruct (@run_missions_follow_start_points Rect RectShapely Script
                  ScriptRandom Cases.threeModes 0 0 100 100 10 1 None
                  Cases.oneAtRail out ([], []))
        as (Hrows & _); [vm_compute; reflexivity | exact Hrows]
  end.
Defined.

(** ** The event handlers *)

Section HandlerFacts.

Context {Geometry : Type} {Shp : Shapely Geometry}.
Context {G : Type} {R : RandomModule G}.

Variable transform : float -> float -> float * float.
Variable layers : Layers Geometry.





(** X18: [parameterSet] is only ever set. [startSimulationTarget] leaves
    it as it is, makes no run and no draw while it is false, and makes a
    run when it is true; [startSimulation] makes a run and leaves the
    flag as it is for type 0, and for any other type sets the flag
    without a run or a draw. *)
Theorem handlers_only_set_flag fuel parameterSet g r g' :
  (forall x,
      startSimulationTarget transform layers fuel x parameterSet g
      = Ok (r, g') ->
      fst r = parameterSet /\
      (parameterSet = false -> snd r = None /\ g' = g) /\
      (parameterSet = true -> snd r <> None)) /\
  (forall extend ped type,
      startSimulation layers fuel extend ped type parameterSet g
      = Ok (r, g') ->
      (type = 0%Z -> fst r = parameterSet /\ snd r <> None) /\
      (type <> 0%Z -> fst r = true /\ snd r = None /\ g' = g)).
Proof.
  split.
  - intros x Hrun. unfold startSimulationTarget in Hrun.
    apply bind_inv_Ok in Hrun. destruct Hrun as (x0 & g0 & Hx0 & Hrun).
    apply bind_inv_Ok in Hrun. destruct Hrun as (x1 & g1 & Hx1 & Hrun).
    unfold lift in Hx0, Hx1.
    destruct (py_index x 0); [injection Hx0 as -> -> | discriminate].
    destruct (py_index x 1); [injection Hx1 as -> -> | discriminate].
    destruct parameterSet.
    + apply bind_inv_Ok in Hrun. destruct Hrun as (out & g2 & _ & Hrun).
      unfold ret in Hrun. injection Hrun as <- <-. simpl.
      repeat split; discriminate.
    + unfold ret in Hrun. injection Hrun as <- <-. simpl.
      repeat split; discriminate.
  - intros extend ped type Hrun. unfold startSimulation in Hrun.
    apply bind_inv_Ok in Hrun. destruct Hrun as (a0 & g0 & H0 & Hrun).
    apply bind_inv_Ok in Hrun. destruct Hrun as (a1 & g1 & H1 & Hrun).
    apply bind_inv_Ok in Hrun. destruct Hrun as (a2 & g2 & H2 & Hrun).
    apply bind_inv_Ok in Hrun. destruct Hrun as (a3 & g3 & H3 & Hrun).
    unfold lift in H0, H1, H2, H3.
    destruct (py_index extend 0); [injection H0 as -> -> | discriminate].
    destruct (py_index extend 1); [injection H1 as -> -> | discriminate].
    destruct (py_index extend 2); [injection H2 as -> -> | discriminate].
    destruct (py_index extend 3); [injection H3 as -> -> | discriminate].
    destruct (Z.eqb_spec type 0) as [->|Htype].
    + apply bind_inv_Ok in Hrun. destruct Hrun as (out & g4 & _ & Hrun).
      unfold ret in Hrun. injection Hrun as <- <-. simpl.
      split; [intros _; split; [reflexivity | discriminate]|].
      intros Hne. now elim Hne.
    + unfold ret in Hrun. injection Hrun as <- <-. simpl.
      split; [intros Heq; now elim Htype|].
      intros _. repeat split.
Qed.

End HandlerFacts.


Lemma handlers_only_set_flag_witness :
  fst (true, @None (Output Rect)) = true /\
  snd (true, @None (Output Rect)) = None /\
  Scenario.twoOnOneSpot = Scenario.twoOnOneSpot.
Proof.
  apply (proj2 (proj2 (@handlers_only_set_flag Rect RectShapely Tape
                         TapeRandom (fun e n => (e, n)) Scenario.railOnly 10
                         false Scenario.twoOnOneSpot (true, None)
                         Scenario.twoOnOneSpot)
                  Senders.mapExtent Senders.peds Senders.ty eq_refl)).
  discriminate.
Defined.

(** ** [defineBorders] again *)

Section RegionFilterAgain.

Context {Geometry : Type} {Shp : Shapely Geometry}.
Implicit Types buildings : list (Feature Geometry).

Lemma filter_twice {A : Type} (keep : A -> bool) (l : list A) :
  filter keep (filter keep l) = filter keep l.
Proof.
  induction l as [|a l IH]; simpl; [reflexivity|].
  destruct (keep a) eqn:Ha; simpl; [rewrite Ha; now f_equal | exact IH].
Qed.

(** X19: clipping is stable and local: clipping the clipped buildings
    to the same box changes nothing, the clipping of two lists put
    together is the two clippings put together, and there are never
    more buildings after than before. *)
Theorem defineBorders_stable buildings buildings' (bbox : Geometry) :
  defineBorders (defineBorders buildings bbox) bbox
  = defineBorders buildings bbox /\
  defineBorders (buildings ++ buildings') bbox
  = defineBorders buildings bbox ++ defineBorders buildings' bbox /\
  (List.length (defineBorders buildings bbox) <= List.length buildings)%nat.
Proof.
  rewrite !defineBorders_filter. split; [|split].
  - apply filter_twice.
  - apply filter_app.
  - apply filter_length_le.
Qed.

End RegionFilterAgain.

Lemma randomPoint_first_candidate_witness :
  mkPoint 10 10 = candidate (mkPoint 10 10) 0.5 0.5.
Proof.
  apply (@randomPoint_first_candidate Tape TapeRandom 10 (mkPoint 10 10)
           [mkPoint 10 10]
           [Scenario.half; Scenario.half; Scenario.ninety; Scenario.ninety]
           (mkPoint 10 10) []).
  vm_compute. reflexivity.
Defined.

Lemma groupByTransport_sorts_witness :
  (List.length [mkPoint 10 10] + List.length [mkPoint 20 20] +
   List.length (@nil Point) + List.length (@nil Point) = 2)%nat.
Proof.
  apply (proj2 (groupByTransport_sorts
                  [(Scenario.station 0 10 10, "Bahn"%string);
                   (Scenario.station 0 20 20, "Bus"%string)])).
  - intros station [<-|[<-|[]]]; unfold transportTag; simpl; tauto.
  - reflexivity.
Defined.
